(** * Cross-page selection tracker of the Artworks data table (src/src/App.tsx)

    A shallow embedding of the React component [App]: its state variables
    become the record [AppState], every handler becomes a function on that
    record, and the asynchronous [fetchData] becomes a pair "request issued /
    response settled" over a list of in-flight requests, each of which carries
    the [globalSelectedIds] value its closure captured. *)

From Stdlib Require Import ZArith Ascii String DecimalString DecimalPos.
From stdpp Require Import gmap list strings.

#[local] Set Warnings "-clear-no-such-hyp".

Local Open Scope string_scope.
Local Open Scope Z_scope.

(** ** Data model *)

(** [interface Artwork].  JavaScript numbers that hold integers are [Z]. *)
Record Artwork := mkArtwork {
  id : Z;
  title : string;
  place_of_origin : string;
  artist_display : string;
  inscriptions : string;
  date_start : Z;
  date_end : Z
}.

(** [interface ApiResponse]: both [data] and [pagination] are read through
    [||] and [?.], so either may be missing from the decoded JSON. *)
Record Pagination := mkPagination {
  total : Z;
  limit : Z;
  offset : Z;
  total_pages : Z;
  current_page : Z
}.

Record ApiResponse := mkApiResponse {
  data : option (list Artwork);
  pagination : option Pagination
}.

(** The [useState] cells of [App], plus the visibility of the overlay panel
    reached through [overlayPanelRef]. *)
Record AppState := mkAppState {
  artworks : list Artwork;
  loading : bool;
  totalRecords : Z;
  currentPage : Z;
  selectedRows : list Artwork;
  selectCount : string;
  globalSelectedIds : gset Z;
  overlayVisible : bool
}.

(** The identifiers of a sequence of records. *)
Definition ids_of (l : list Artwork) : gset Z := list_to_set (id <$> l).

(** ** [parseInt]

    ECMAScript [parseInt(string)] with no radix: leading white space is
    skipped, one sign is read, a [0x]/[0X] prefix selects radix 16, and the
    longest prefix of digits is converted; [None] stands for [NaN].  A string
    is a sequence of code units below 256. The result is kept exact: the
    program only compares it with 0 and takes its minimum with an array
    length, and neither is changed by the rounding JavaScript applies to
    integers beyond 2^53. *)

Definition is_white_space (c : ascii) : bool :=
  let n := nat_of_ascii c in
  bool_decide (n = 9 ∨ n = 10 ∨ n = 11 ∨ n = 12 ∨ n = 13 ∨ n = 32 ∨ n = 160)%nat.

Fixpoint trim_start (s : string) : string :=
  match s with
  | String c s' => if is_white_space c then trim_start s' else s
  | EmptyString => s
  end.

Definition digit_value (c : ascii) : option Z :=
  let n := Z.of_nat (nat_of_ascii c) in
  if bool_decide (48 <= n <= 57) then Some (n - 48)
  else if bool_decide (97 <= n <= 122) then Some (n - 87)
  else if bool_decide (65 <= n <= 90) then Some (n - 55)
  else None.

Definition radix_digit (R : Z) (c : ascii) : option Z :=
  match digit_value c with
  | Some d => if bool_decide (d < R) then Some d else None
  | None => None
  end.

(** Value of the longest prefix of radix-[R] digits; [acc] is [None] until a
    first digit has been read. *)
Fixpoint parse_digits (R : Z) (s : string) (acc : option Z) : option Z :=
  match s with
  | String c s' =>
      match radix_digit R c with
      | Some d => parse_digits R s' (Some (default 0 acc * R + d))
      | None => acc
      end
  | EmptyString => acc
  end.

Definition strip_sign (s : string) : Z * string :=
  match s with
  | String "-" r => (-1, r)
  | String "+" r => (1, r)
  | _ => (1, s)
  end.

Definition strip_prefix (s : string) : Z * string :=
  match s with
  | String "0" (String "x" r) => (16, r)
  | String "0" (String "X" r) => (16, r)
  | _ => (10, s)
  end.

Definition parseInt (s : string) : option Z :=
  let '(sign, s1) := strip_sign (trim_start s) in
  let '(R, s2) := strip_prefix s1 in
  match parse_digits R s2 None with
  | Some m => Some (sign * m)
  | None => None
  end.

(** ** State setters

    One function per [useState] setter; a handler is the composition of the
    setters it calls, in source order.  Inside one handler every read goes to
    the values of the render that created the handler, which is the state the
    handler is applied to. *)

Definition setArtworks (v : list Artwork) (st : AppState) : AppState :=
  mkAppState v (loading st) (totalRecords st) (currentPage st)
    (selectedRows st) (selectCount st) (globalSelectedIds st) (overlayVisible st).

Definition setLoading (v : bool) (st : AppState) : AppState :=
  mkAppState (artworks st) v (totalRecords st) (currentPage st)
    (selectedRows st) (selectCount st) (globalSelectedIds st) (overlayVisible st).

Definition setTotalRecords (v : Z) (st : AppState) : AppState :=
  mkAppState (artworks st) (loading st) v (currentPage st)
    (selectedRows st) (selectCount st) (globalSelectedIds st) (overlayVisible st).

Definition setCurrentPage (v : Z) (st : AppState) : AppState :=
  mkAppState (artworks st) (loading st) (totalRecords st) v
    (selectedRows st) (selectCount st) (globalSelectedIds st) (overlayVisible st).

Definition setSelectedRows (v : list Artwork) (st : AppState) : AppState :=
  mkAppState (artworks st) (loading st) (totalRecords st) (currentPage st)
    v (selectCount st) (globalSelectedIds st) (overlayVisible st).

Definition setSelectCount (v : string) (st : AppState) : AppState :=
  mkAppState (artworks st) (loading st) (totalRecords st) (currentPage st)
    (selectedRows st) v (globalSelectedIds st) (overlayVisible st).

Definition setGlobalSelectedIds (v : gset Z) (st : AppState) : AppState :=
  mkAppState (artworks st) (loading st) (totalRecords st) (currentPage st)
    (selectedRows st) (selectCount st) v (overlayVisible st).

(** [overlayPanelRef.current?.hide()] and [overlayPanelRef.current?.toggle(e)] *)
Definition overlay_hide (st : AppState) : AppState :=
  mkAppState (artworks st) (loading st) (totalRecords st) (currentPage st)
    (selectedRows st) (selectCount st) (globalSelectedIds st) false.

Definition overlay_toggle (st : AppState) : AppState :=
  mkAppState (artworks st) (loading st) (totalRecords st) (currentPage st)
    (selectedRows st) (selectCount st) (globalSelectedIds st)
    (negb (overlayVisible st)).

(** ** Selection mutators *)

(** [artworks.forEach(artwork => newGlobalIds.delete(artwork.id))] *)
Definition delete_each (s : gset Z) (l : list Artwork) : gset Z :=
  foldl (λ acc a, acc ∖ {[ id a ]}) s l.

(** [xs.forEach(artwork => newGlobalIds.add(artwork.id))] *)
Definition add_each (s : gset Z) (l : list Artwork) : gset Z :=
  foldl (λ acc a, acc ∪ {[ id a ]}) s l.

(** [onSelectionChange(e)], with [value = e.value]. *)
Definition onSelectionChange (value : list Artwork) (st : AppState) : AppState :=
  let newSelection := value in
  let newGlobalIds := globalSelectedIds st in
  let newGlobalIds := delete_each newGlobalIds (artworks st) in
  let newGlobalIds := add_each newGlobalIds newSelection in
  setGlobalSelectedIds newGlobalIds (setSelectedRows newSelection st).

(** [handleSelectAll()]: the branch is chosen by comparing the lengths of
    [selectedRows] and [artworks]. *)
Definition handleSelectAll (st : AppState) : AppState :=
  if bool_decide (length (selectedRows st) = length (artworks st)) then
    let newGlobalIds := delete_each (globalSelectedIds st) (artworks st) in
    setSelectedRows [] (setGlobalSelectedIds newGlobalIds st)
  else
    let newGlobalIds := add_each (globalSelectedIds st) (artworks st) in
    setSelectedRows (artworks st) (setGlobalSelectedIds newGlobalIds st).

(** [artworks.slice(0, Math.min(remainingCount, artworks.length))] *)
Definition slice_first (count : Z) (l : list Artwork) : list Artwork :=
  take (Z.to_nat (Z.min count (Z.of_nat (length l)))) l.

(** [handleCustomSelection()].  The early [return] leaves every state cell as
    it was; otherwise the selection is emptied, then refilled from the
    loaded page. *)
Definition handleCustomSelection (st : AppState) : AppState :=
  match parseInt (selectCount st) with
  | None => st
  | Some count =>
      if bool_decide (count <= 0) then st
      else
        let st1 := setSelectedRows [] (setGlobalSelectedIds ∅ st) in
        let remainingCount := count in
        let currentPageSelection := slice_first remainingCount (artworks st) in
        let newGlobalIds := add_each ∅ currentPageSelection in
        overlay_hide
          (setSelectCount ""
             (setSelectedRows currentPageSelection
                (setGlobalSelectedIds newGlobalIds st1)))
  end.

(** ** Fetching a page

    [fetchData(page)] runs in two parts.  Up to the first [await] it only
    calls [setLoading(true)]; the rest runs when the network call settles.
    The function is a closure of the render that started it, so the
    [globalSelectedIds] it reads after the [await] is the value of that
    render: a request in flight records it in [req_ids]. *)

Inductive FetchResult :=
  | Fulfilled (r : ApiResponse)   (* [fetch] and [response.json()] succeeded *)
  | Rejected.                     (* one of them threw *)

Record Pending := mkPending {
  req_page : Z;
  req_ids : gset Z
}.

(** Outcome of a block of statements: it finishes, or it throws. *)
Inductive Completion :=
  | Normal (st : AppState)
  | Throw (st : AppState).

(** [data.data?.filter(artwork => globalSelectedIds.has(artwork.id)) || []] *)
Definition reconcile (d : option (list Artwork)) (ids : gset Z) : list Artwork :=
  match d with
  | Some records => filter (λ artwork, id artwork ∈ ids) records
  | None => []
  end.

(** The [try] block after the [await]s. *)
Definition fetchData_try (ids : gset Z) (res : FetchResult) (st : AppState) : Completion :=
  match res with
  | Rejected => Throw st
  | Fulfilled r =>
      let st := setArtworks (default [] (data r)) st in
      let st := setTotalRecords (default 0 (total <$> pagination r)) st in
      let currentPageSelected := reconcile (data r) ids in
      Normal (setSelectedRows currentPageSelected st)
  end.

(** The [catch] block. *)
Definition fetchData_catch (st : AppState) : AppState :=
  setTotalRecords 0 (setArtworks [] st).

(** The [finally] block. *)
Definition fetchData_finally (st : AppState) : AppState := setLoading false st.

(** Everything [fetchData] does once the network call has settled. *)
Definition fetchData_settle (rq : Pending) (res : FetchResult) (st : AppState) : Completion :=
  match fetchData_try (req_ids rq) res st with
  | Normal st' => Normal (fetchData_finally st')
  | Throw st' => Normal (fetchData_finally (fetchData_catch st'))
  end.

(** ** The component as an event system *)

Record System := mkSystem {
  app : AppState;
  inflight : list Pending
}.

(** [fetchData(page)] up to its first [await], started by the effect of a
    render whose state is [st]. *)
Definition fetchData_start (page : Z) (sys : System) : System :=
  mkSystem (setLoading true (app sys))
           (inflight sys ++ [mkPending page (globalSelectedIds (app sys))]).

(** [onPageChange(event)] followed by the re-render: the effect
    [useEffect(..., [currentPage])] starts a fetch when, and only when, the
    page number changed. *)
Definition onPageChange (event_page : Z) (sys : System) : System :=
  let newPage := event_page + 1 in
  if bool_decide (newPage = currentPage (app sys)) then sys
  else fetchData_start newPage (mkSystem (setCurrentPage newPage (app sys)) (inflight sys)).

(** The [k]-th request in flight settles with [res]. *)
Definition settle (k : nat) (res : FetchResult) (sys : System) : System :=
  match inflight sys !! k with
  | None => sys
  | Some rq =>
      match fetchData_settle rq res (app sys) with
      | Normal st' | Throw st' => mkSystem st' (delete k (inflight sys))
      end
  end.

Inductive Event :=
  | PageClick (event_page : Z)
  | SelectionChange (value : list Artwork)
  | HeaderCheckbox
  | TypeCount (s : string)
  | OverlayButton
  | Submit
  | Settled (k : nat) (res : FetchResult).

Definition on_app (f : AppState → AppState) (sys : System) : System :=
  mkSystem (f (app sys)) (inflight sys).

Definition step (sys : System) (e : Event) : System :=
  match e with
  | PageClick p => onPageChange p sys
  | SelectionChange v => on_app (onSelectionChange v) sys
  | HeaderCheckbox => on_app handleSelectAll sys
  | TypeCount s => on_app (setSelectCount s) sys
  | OverlayButton => on_app overlay_toggle sys
  | Submit => on_app handleCustomSelection sys
  | Settled k res => settle k res sys
  end.

Definition run (sys : System) (es : list Event) : System := foldl step sys es.

(** The first render, after its mount effect has called [fetchData(1)]. *)
Definition initial_state : AppState :=
  mkAppState [] false 0 1 [] "" ∅ false.

Definition mounted : System := fetchData_start 1 (mkSystem initial_state []).

(** A record with identifier [i]; the other fields do not matter. *)
Definition art (i : Z) : Artwork := mkArtwork i "" "" "" "" 0 0.

Definition page_of (l : list Z) : FetchResult :=
  Fulfilled (mkApiResponse (Some (art <$> l)) (Some (mkPagination 100 12 0 9 1))).

(** The view and the Selection Set agree on the loaded page. *)
Definition view_consistent (st : AppState) : Prop :=
  selectedRows st = filter (λ a, id a ∈ globalSelectedIds st) (artworks st).

(** The spec's [min(n, page.records.length)] first records of a page. *)
Definition first_n (n : nat) (page : list Artwork) : list Artwork :=
  take (n `min` length page) page.

(** Events that only navigate: a click on the paginator, a response. *)
Definition is_navigation (e : Event) : bool :=
  match e with
  | PageClick _ | Settled _ _ => true
  | _ => false
  end.

(** ** Sample states and sessions *)

(** A state used to exercise the theorems below: page [1;2;3] is loaded, its
    first record is selected together with record 13 of another page, and
    the input box holds ["2"]. *)
Definition sample_state : AppState :=
  mkAppState (art <$> [1; 2; 3]) false 100 1 [art 1] "2" {[ 1; 13 ]} true.

(** Page [1;2;3] loaded, nothing of it selected, record 13 of another page
    selected, and ["2"] typed in the bulk-selection box. *)
Definition other_page_state : AppState :=
  mkAppState (art <$> [1; 2; 3]) false 100 1 [] "2" {[ 13 ]} true.

(** Page [1;2;3] loaded with only its first record selected. *)
Definition partial_state : AppState :=
  mkAppState (art <$> [1; 2; 3]) false 100 1 [art 1] "" {[ 1 ]} false.


(** After the first page has loaded the user clicks on page 2 and, before
    its response arrives, on page 3; the response for page 3 arrives first. *)
Definition overtaking_trace : list Event :=
  [ Settled 0 (page_of [1; 2; 3]);
    PageClick 1;
    PageClick 2;
    Settled 1 (page_of [25; 26; 27]) ].

(** A session with a mutation during a fetch: record 13 of page 2 is selected,
    the user returns to page 1, asks for page 2 again and, while that request
    is in flight, submits ["1"] in the bulk-selection box. *)
Definition interleaved_trace : list Event :=
  [ Settled 0 (page_of [1; 2; 3]);
    PageClick 1;
    Settled 0 (page_of [13; 14]);
    SelectionChange [art 13];
    PageClick 0;
    Settled 0 (page_of [1; 2; 3]);
    PageClick 1;
    TypeCount "1";
    Submit ].

(** ** What the header and the table read from the state *)

(** [artworks.length > 0 && selectedRows.length === artworks.length] *)
Definition allSelected (st : AppState) : bool :=
  bool_decide (0 < length (artworks st))%nat
  && bool_decide (length (selectedRows st) = length (artworks st)).

(** [selectedRows.length > 0 && selectedRows.length < artworks.length] *)
Definition partialSelected (st : AppState) : bool :=
  bool_decide (0 < length (selectedRows st))%nat
  && bool_decide (length (selectedRows st) < length (artworks st))%nat.

(** [disabled={!selectCount || isNaN(parseInt(selectCount))}] of the Submit
    button; [!selectCount] holds for the empty string only. *)
Definition submit_disabled (st : AppState) : bool :=
  bool_decide (selectCount st = "")
  || bool_decide (parseInt (selectCount st) = None).

(** [{globalSelectedIds.size} row(s) selected across all pages] *)
Definition selected_count (st : AppState) : nat := size (globalSelectedIds st).

(** [first={(currentPage - 1) * 12}] *)
Definition table_first (st : AppState) : Z := (currentPage st - 1) * 12.

(** ** [formatValue]

    The argument of [formatValue] has type [any].  [JsNumber n] is the
    number whose value is the integer [n]; [JsOther] stands for every value
    not listed: a number that is not an integer, an array, an object. *)
Inductive JsValue :=
  | JsNull
  | JsUndefined
  | JsString (s : string)
  | JsNumber (n : Z)
  | JsBoolean (b : bool)
  | JsOther.

(** [Number.isSafeInteger(n)]: magnitude at most [2^53 - 1]. *)
Definition safe_integer (n : Z) : bool :=
  bool_decide (- 9007199254740991 ≤ n ≤ 9007199254740991).

(** The decimal numeral of an integer. *)
Definition decimal (n : Z) : string := NilZero.string_of_int (Z.to_int n).

(** A string that does not go on with a decimal digit. *)
Definition no_leading_digit (rest : string) : Prop :=
  match rest with
  | String c _ => radix_digit 10 c = None
  | EmptyString => True
  end.

(** [String(value)], where its result is determined by the value above: a
    safe integer is printed as its decimal numeral.  Larger numbers are
    printed from their rounded value, possibly with an exponent, and the
    text of an object is what its own [toString] returns; both are left
    undetermined ([None]). *)
Definition js_String (value : JsValue) : option string :=
  match value with
  | JsNull => Some "null"
  | JsUndefined => Some "undefined"
  | JsString s => Some s
  | JsNumber n => if safe_integer n then Some (decimal n) else None
  | JsBoolean b => Some (if b then "true" else "false")
  | JsOther => None
  end.

Definition formatValue (value : JsValue) : option string :=
  match value with
  | JsNull | JsUndefined => Some "N/A"
  | JsString s => Some (if bool_decide (s = "") then "N/A" else s)
  | _ => js_String value
  end.

(** An input that denotes an integer: optional white space, an optional
    sign, then decimal digits and nothing else. *)
Fixpoint all_decimal_digits (s : string) : bool :=
  match s with
  | String c r => bool_decide (is_Some (radix_digit 10 c)) && all_decimal_digits r
  | EmptyString => true
  end.

Definition is_integer_numeral (s : string) : bool :=
  match snd (strip_sign (trim_start s)) with
  | EmptyString => false
  | r => all_decimal_digits r
  end.

(** Page [1;2;3] loaded, record 13 of another page selected, and ["5x"]
    typed in the bulk-selection box. *)
Definition prefix_input_state : AppState :=
  mkAppState (art <$> [1; 2; 3]) false 100 1 [] "5x" {[ 13 ]} true.

(** ** Sessions *)

(** The identifiers a session has received from the server. *)
Definition response_ids (e : Event) : gset Z :=
  match e with
  | Settled _ (Fulfilled r) => ids_of (default [] (data r))
  | _ => ∅
  end.

Definition fetched_ids (es : list Event) : gset Z := ⋃ (response_ids <$> es).

(** The table only reports rows it displays: every [SelectionChange] of the
    session carries records whose identifiers are on the page loaded at that
    moment. *)
Fixpoint table_events_ok (sys : System) (es : list Event) : bool :=
  match es with
  | [] => true
  | e :: es' =>
      match e with
      | SelectionChange v => bool_decide (ids_of v ⊆ ids_of (artworks (app sys)))
      | _ => true
      end
      && table_events_ok (step sys e) es'
  end.

(** ** The version of the component with a dialog

    The second [App] of the source file replaces the overlay panel by a
    dialog with a number box: the header checkbox passes its checked flag to
    [handleSelectAll], and [confirmSelectMultiple] selects the first
    [rowsToSelect] rows of the page. *)

Module DialogVersion.

Record State := mkState {
  artworks : list Artwork;
  loading : bool;
  totalRecords : Z;
  currentPage : Z;
  selectedRows : list Artwork;
  globalSelectedIds : gset Z;
  showSelectDialog : bool;
  rowsToSelect : Z
}.

Definition setSelectedRows (v : list Artwork) (st : State) : State :=
  mkState (artworks st) (loading st) (totalRecords st) (currentPage st)
    v (globalSelectedIds st) (showSelectDialog st) (rowsToSelect st).

Definition setGlobalSelectedIds (v : gset Z) (st : State) : State :=
  mkState (artworks st) (loading st) (totalRecords st) (currentPage st)
    (selectedRows st) v (showSelectDialog st) (rowsToSelect st).

Definition setShowSelectDialog (v : bool) (st : State) : State :=
  mkState (artworks st) (loading st) (totalRecords st) (currentPage st)
    (selectedRows st) (globalSelectedIds st) v (rowsToSelect st).

Definition setRowsToSelect (v : Z) (st : State) : State :=
  mkState (artworks st) (loading st) (totalRecords st) (currentPage st)
    (selectedRows st) (globalSelectedIds st) (showSelectDialog st) v.

(** [onSelectionChange(e)], the same text as in the first version. *)
Definition onSelectionChange (value : list Artwork) (st : State) : State :=
  let newSelection := value in
  let newGlobalIds := globalSelectedIds st in
  let newGlobalIds := delete_each newGlobalIds (artworks st) in
  let newGlobalIds := add_each newGlobalIds newSelection in
  setGlobalSelectedIds newGlobalIds (setSelectedRows newSelection st).

(** [handleSelectAll(e)], with [isChecked = e.target.checked]. *)
Definition handleSelectAll (isChecked : bool) (st : State) : State :=
  let newGlobalIds := globalSelectedIds st in
  if isChecked then
    let newGlobalIds := add_each newGlobalIds (artworks st) in
    setGlobalSelectedIds newGlobalIds (setSelectedRows (artworks st) st)
  else
    let newGlobalIds := delete_each newGlobalIds (artworks st) in
    setGlobalSelectedIds newGlobalIds (setSelectedRows [] st).

(** [handleSelectMultiple()] opens the dialog. *)
Definition handleSelectMultiple (st : State) : State := setShowSelectDialog true st.

(** [onValueChange={(e) => setRowsToSelect(e.value || 0)}]: the number box
    reports [null] when it is emptied. *)
Definition onValueChange (value : option Z) (st : State) : State :=
  setRowsToSelect (default 0 value) st.

(** [xs.slice(0, end)] for an integer [end]: a negative [end] counts from the
    end of the array. *)
Definition slice0 (end_ : Z) (l : list Artwork) : list Artwork :=
  let len := Z.of_nat (length l) in
  let final := if bool_decide (end_ < 0) then Z.max (len + end_) 0
               else Z.min end_ len in
  take (Z.to_nat final) l.

(** [confirmSelectMultiple()] *)
Definition confirmSelectMultiple (st : State) : State :=
  let newSelection := slice0 (rowsToSelect st) (artworks st) in
  let st1 := setSelectedRows newSelection st in
  let newGlobalIds := globalSelectedIds st in
  let newGlobalIds := delete_each newGlobalIds (artworks st) in
  let newGlobalIds := add_each newGlobalIds newSelection in
  setShowSelectDialog false (setGlobalSelectedIds newGlobalIds st1).

(** [checked={selectedRows.length === artworks.length && artworks.length > 0}] *)
Definition checkbox_checked (st : State) : bool :=
  bool_decide (length (selectedRows st) = length (artworks st))
  && bool_decide (0 < length (artworks st))%nat.

(** Page [1;2;3] loaded, record 2 and record 13 of another page selected,
    the number box at its initial value. *)
Definition sample : State :=
  mkState (art <$> [1; 2; 3]) false 100 1 [art 2] {[ 2; 13 ]} true 10.

End DialogVersion.

(** ** Set-level meaning of the [forEach] loops *)

Section loops.
Implicit Types (s : gset Z) (l : list Artwork) (i : Z).

Lemma elem_of_ids_of l i : i ∈ ids_of l ↔ ∃ a, a ∈ l ∧ id a = i.
Proof.
  unfold ids_of. rewrite elem_of_list_to_set, list_elem_of_fmap.
  split; intros (a & H1 & H2); exists a; auto.
Qed.

Lemma ids_of_cons a l : ids_of (a :: l) = {[ id a ]} ∪ ids_of l.
Proof. reflexivity. Qed.

Lemma delete_each_spec s l : delete_each s l = s ∖ ids_of l.
Proof.
  unfold delete_each. revert s.
  induction l as [|a l IH]; intros s; simpl.
  - unfold ids_of; simpl. set_solver.
  - rewrite IH, ids_of_cons. set_solver.
Qed.

Lemma add_each_spec s l : add_each s l = s ∪ ids_of l.
Proof.
  unfold add_each. revert s.
  induction l as [|a l IH]; intros s; simpl.
  - unfold ids_of; simpl. set_solver.
  - rewrite IH, ids_of_cons. set_solver.
Qed.

Lemma ids_of_sublist v l : sublist v l → ids_of v ⊆ ids_of l.
Proof.
  intros Hs i. rewrite !elem_of_ids_of. intros (a & Ha & <-).
  exists a. split; [|done]. by apply (sublist_subseteq _ _ Hs).
Qed.

Lemma slice_first_eq (count : Z) l :
  0 < count → slice_first count l = first_n (Z.to_nat count) l.
Proof.
  intros Hc. unfold slice_first, first_n. f_equal. lia.
Qed.

Lemma first_n_sublist n l : sublist (first_n n l) l.
Proof. unfold first_n. apply sublist_take. Qed.
End loops.

(** ** The view as a filter of the page *)

Section view.
Implicit Types (s : gset Z) (l v : list Artwork).

Lemma filter_all s l :
  (∀ a, a ∈ l → id a ∈ s) → filter (λ a, id a ∈ s) l = l.
Proof.
  induction l as [|a l IH]; intros H; [done|].
  rewrite filter_cons_True by (apply H; left).
  f_equal. apply IH. intros b Hb. apply H. by right.
Qed.

Lemma filter_none s l :
  (∀ a, a ∈ l → id a ∉ s) → filter (λ a, id a ∈ s) l = [].
Proof.
  induction l as [|a l IH]; intros H; [done|].
  rewrite filter_cons_False by (apply H; left).
  apply IH. intros b Hb. apply H. by right.
Qed.

Lemma filter_ext_ids s1 s2 l :
  (∀ a, a ∈ l → id a ∈ s1 ↔ id a ∈ s2) →
  filter (λ a, id a ∈ s1) l = filter (λ a, id a ∈ s2) l.
Proof.
  induction l as [|a l IH]; intros H; [done|].
  assert (Hl : filter (λ a, id a ∈ s1) l = filter (λ a, id a ∈ s2) l).
  { apply IH. intros b Hb. apply H. by right. }
  destruct (decide (id a ∈ s1)) as [Hin|Hout].
  - rewrite !filter_cons_True; [by rewrite Hl| |done].
    apply H; [left|done].
  - rewrite !filter_cons_False; [done| |done].
    intros Hin. apply Hout, H; [left|done].
Qed.

(** With distinct identifiers on the page, filtering the page by the
    identifiers of one of its subsequences gives that subsequence back. *)
Lemma filter_ids_of_sublist v l :
  NoDup (id <$> l) → sublist v l →
  filter (λ a, id a ∈ ids_of v) l = v.
Proof.
  intros Hnd Hsub. induction Hsub as [|a v l Hsub IH|a v l Hsub IH].
  - done.
  - apply NoDup_cons in Hnd as [Hnotin Hnd].
    rewrite filter_cons_True by (rewrite ids_of_cons; set_solver).
    f_equal. transitivity (filter (λ b, id b ∈ ids_of v) l); [|by apply IH].
    apply filter_ext_ids. intros b Hb. rewrite ids_of_cons.
    assert (id b ≠ id a).
    { intros Heq. apply Hnotin. rewrite <- Heq.
      apply list_elem_of_fmap. by exists b. }
    set_solver.
  - apply NoDup_cons in Hnd as [Hnotin Hnd].
    rewrite filter_cons_False; [by apply IH|].
    intros Hin. apply Hnotin.
    apply (ids_of_sublist _ _ Hsub), elem_of_ids_of in Hin as (b & Hb & Heq).
    apply list_elem_of_fmap. by exists b.
Qed.


End view.

(** ** Bulk selection: [handleCustomSelection] *)

Lemma parseInt_empty : parseInt "" = None.
Proof. reflexivity. Qed.

Lemma handleCustomSelection_declined st :
  (parseInt (selectCount st) = None ∨
   ∃ n, parseInt (selectCount st) = Some n ∧ n ≤ 0) →
  handleCustomSelection st = st.
Proof.
  unfold handleCustomSelection. intros [-> | (n & -> & Hn)]; [done|].
  by rewrite bool_decide_eq_true_2.
Qed.

Lemma handleCustomSelection_accepted st n :
  parseInt (selectCount st) = Some n → 0 < n →
  handleCustomSelection st =
    mkAppState (artworks st) (loading st) (totalRecords st) (currentPage st)
      (first_n (Z.to_nat n) (artworks st)) ""
      (ids_of (first_n (Z.to_nat n) (artworks st))) false.
Proof.
  intros Hp Hn. unfold handleCustomSelection. rewrite Hp.
  rewrite bool_decide_eq_false_2 by lia. simpl.
  rewrite add_each_spec, slice_first_eq by done.
  unfold overlay_hide, setSelectCount, setSelectedRows, setGlobalSelectedIds; simpl.
  f_equal. set_solver.
Qed.

(** C1, as stated, fails.  The input ["5x"] is not numeric, yet the bulk
    selection is not declined: [parseInt] reads 5 and the Selection Set
    [{13}] is replaced by the identifiers of the page.  And an identifier
    selected before the call is still selected after it when it belongs to
    one of the chosen records: 1 in [sample_state]. *)
Lemma selectFirstN_accepts_numeric_prefix :
  selectCount prefix_input_state = "5x" ∧
  is_integer_numeral "5x" = false ∧
  parseInt "5x" = Some 5 ∧
  globalSelectedIds prefix_input_state = {[ 13 ]} ∧
  globalSelectedIds (handleCustomSelection prefix_input_state)
    = ids_of (art <$> [1; 2; 3]) ∧
  globalSelectedIds (handleCustomSelection prefix_input_state)
    ≠ globalSelectedIds prefix_input_state ∧
  (1 ∈ globalSelectedIds sample_state) ∧
  (1 ∈ globalSelectedIds (handleCustomSelection sample_state)).
Proof.
  assert (Hset : globalSelectedIds (handleCustomSelection prefix_input_state)
                 = ids_of (art <$> [1; 2; 3])).
  { by rewrite (handleCustomSelection_accepted prefix_input_state 5). }
  assert (Hkept : 1 ∈ globalSelectedIds (handleCustomSelection sample_state)).
  { rewrite (handleCustomSelection_accepted sample_state 2) by reflexivity.
    simpl. apply elem_of_ids_of. exists (art 1). split; [|done].
    vm_compute. left. }
  assert (Hchanged : globalSelectedIds (handleCustomSelection prefix_input_state)
                     ≠ globalSelectedIds prefix_input_state).
  { rewrite Hset. intros Heq.
    assert (H13 : 13 ∈ ids_of (art <$> [1; 2; 3])).
    { rewrite Heq. unfold prefix_input_state. simpl. set_solver. }
    apply elem_of_ids_of in H13 as (a & Ha & Hid). simpl in Ha. set_solver. }
  assert (Hbefore : 1 ∈ globalSelectedIds sample_state).
  { unfold sample_state. simpl. set_solver. }
  repeat split; (reflexivity || assumption).
Qed.

(** C1, amended. Whenever [parseInt] of the input box is a positive [n],
    which includes text that merely starts with a numeral,
    [handleCustomSelection] empties the Selection Set and then selects the
    first [min(n, length)] records of the loaded page, in page order: the
    view is that prefix, the Selection Set is exactly the set of its
    identifiers, so an identifier selected before the call (on this page or
    on another one) stays only if it is the identifier of one of these
    records.  When [parseInt] of the input is [NaN], or is [n <= 0], nothing
    changes. *)
Theorem selectFirstN_resets_then_selects (st : AppState) :
  (∀ n : Z, parseInt (selectCount st) = Some n → 0 < n →
     let st' := handleCustomSelection st in
     let chosen := first_n (Z.to_nat n) (artworks st) in
     selectedRows st' = chosen ∧
     globalSelectedIds st' = ids_of chosen ∧
     (∀ i, i ∈ globalSelectedIds st' ↔ ∃ a, a ∈ chosen ∧ id a = i) ∧
     (∀ i, i ∈ globalSelectedIds st → i ∉ ids_of chosen →
           i ∉ globalSelectedIds st') ∧
     (∀ i, i ∉ ids_of (artworks st) → i ∉ globalSelectedIds st')) ∧
  ((parseInt (selectCount st) = None ∨
    ∃ n, parseInt (selectCount st) = Some n ∧ n ≤ 0) →
     handleCustomSelection st = st).
Proof.
  split; [|apply handleCustomSelection_declined].
  intros n Hp Hn st' chosen. subst st'.
  rewrite (handleCustomSelection_accepted st n Hp Hn); simpl. fold chosen.
  split_and!; try done.
  - intros i. apply elem_of_ids_of.
  - intros i Hi. apply not_elem_of_weaken with (ids_of (artworks st)); [done|].
    apply ids_of_sublist, first_n_sublist.
Qed.

Lemma selectFirstN_resets_then_selects_witness :
  (globalSelectedIds (handleCustomSelection sample_state)
     = ids_of (first_n 2 (art <$> [1; 2; 3]))) ∧
  (13 ∉ globalSelectedIds (handleCustomSelection sample_state)) ∧
  (selectedRows (handleCustomSelection prefix_input_state)
     = first_n 5 (art <$> [1; 2; 3])) ∧
  (handleCustomSelection (setSelectCount "abc" sample_state)
     = setSelectCount "abc" sample_state).
Proof.
  destruct (selectFirstN_resets_then_selects sample_state) as [Hsel _].
  destruct (Hsel 2 eq_refl eq_refl) as (_ & Hset & _ & Hold & _).
  destruct (selectFirstN_resets_then_selects prefix_input_state) as [Hprefix _].
  destruct (Hprefix 5 eq_refl eq_refl) as (Hrows & _).
  split_and!.
  - exact Hset.
  - apply Hold; [set_solver|]. vm_compute. set_solver.
  - exact Hrows.
  - apply (selectFirstN_resets_then_selects (setSelectCount "abc" sample_state)).
    left. reflexivity.
Defined.

(** C10. [handleCustomSelection] takes its early return, leaving the whole
    state (Selection Set and view included) as it was, exactly when
    [parseInt] of the input is [NaN] or at most 0.  A string with a numeric
    prefix is therefore accepted as its leading integer: ["3.7"] selects the
    first 3 records and ["5x"] the first 5. *)
Theorem handleCustomSelection_declines_iff :
  (∀ st, handleCustomSelection st = st ↔
         (parseInt (selectCount st) = None ∨
          ∃ n, parseInt (selectCount st) = Some n ∧ n ≤ 0)) ∧
  (∀ st, parseInt (selectCount st) = None ∨
         (∃ n, parseInt (selectCount st) = Some n ∧ n ≤ 0) →
         globalSelectedIds (handleCustomSelection st) = globalSelectedIds st ∧
         selectedRows (handleCustomSelection st) = selectedRows st) ∧
  parseInt "3.7" = Some 3 ∧
  parseInt "5x" = Some 5 ∧
  (∀ st, let st' := handleCustomSelection (setSelectCount "3.7" st) in
         selectedRows st' = first_n 3 (artworks st) ∧
         globalSelectedIds st' = ids_of (first_n 3 (artworks st))) ∧
  (∀ st, let st' := handleCustomSelection (setSelectCount "5x" st) in
         selectedRows st' = first_n 5 (artworks st) ∧
         globalSelectedIds st' = ids_of (first_n 5 (artworks st))).
Proof.
  split_and!; try reflexivity.
  - intros st. split; [|apply handleCustomSelection_declined].
    intros Heq. destruct (parseInt (selectCount st)) as [n|] eqn:Hp; [|by left].
    right. exists n. split; [done|].
    destruct (decide (n ≤ 0)) as [|Hpos]; [done|]. exfalso.
    rewrite (handleCustomSelection_accepted st n) in Heq by (done || lia).
    rewrite <- Heq in Hp. simpl in Hp. by rewrite parseInt_empty in Hp.
  - intros st Hd. by rewrite handleCustomSelection_declined.
  - intros st st'. subst st'.
    by rewrite (handleCustomSelection_accepted _ 3).
  - intros st st'. subst st'.
    by rewrite (handleCustomSelection_accepted _ 5).
Qed.

Lemma handleCustomSelection_declines_iff_witness :
  (handleCustomSelection (setSelectCount "-4" sample_state)
     = setSelectCount "-4" sample_state) ∧
  (selectedRows (handleCustomSelection (setSelectCount "x5" sample_state))
     = [art 1]) ∧
  (selectedRows (handleCustomSelection (setSelectCount "5x" sample_state))
     = art <$> [1; 2; 3]).
Proof.
  destruct handleCustomSelection_declines_iff as (Hiff & Hkeep & _ & _ & _ & H5).
  split_and!.
  - apply Hiff. right. exists (-4). split; [reflexivity | lia].
  - apply (Hkeep (setSelectCount "x5" sample_state)). left. reflexivity.
  - apply (H5 sample_state).
Defined.

(** ** Row toggling: [onSelectionChange] *)

Lemma onSelectionChange_ids v st :
  globalSelectedIds (onSelectionChange v st)
  = (globalSelectedIds st ∖ ids_of (artworks st)) ∪ ids_of v.
Proof.
  unfold onSelectionChange; simpl. by rewrite add_each_spec, delete_each_spec.
Qed.

(** C3. When the table reports [newPageSelection], a subsequence of the
    loaded page, [onSelectionChange] leaves the Selection Set equal to the
    old set minus the identifiers of the page, plus the identifiers of
    [newPageSelection]: an identifier of this page that was selected and is
    absent from the new selection is deselected, and an identifier that does
    not belong to the page keeps its membership. *)
Theorem toggleSelection_remove_then_add (st : AppState) (newPageSelection : list Artwork) :
  sublist newPageSelection (artworks st) →
  let st' := onSelectionChange newPageSelection st in
  globalSelectedIds st'
    = (globalSelectedIds st ∖ ids_of (artworks st)) ∪ ids_of newPageSelection ∧
  selectedRows st' = newPageSelection ∧
  (∀ i, i ∈ globalSelectedIds st → i ∈ ids_of (artworks st) →
        i ∉ ids_of newPageSelection → i ∉ globalSelectedIds st') ∧
  (∀ i, i ∉ ids_of (artworks st) →
        (i ∈ globalSelectedIds st' ↔ i ∈ globalSelectedIds st)).
Proof.
  intros Hsub st'. subst st'. rewrite onSelectionChange_ids.
  pose proof (ids_of_sublist _ _ Hsub) as Hincl.
  split_and!; [done|done| |]; intros i; set_solver.
Qed.

Lemma toggleSelection_remove_then_add_witness :
  globalSelectedIds (onSelectionChange [art 2; art 3] sample_state)
  = ({[ 1; 13 ]} ∖ ids_of (art <$> [1; 2; 3])) ∪ ids_of [art 2; art 3].
Proof.
  apply (toggleSelection_remove_then_add sample_state [art 2; art 3]).
  apply sublist_cons. reflexivity.
Defined.

(** ** The header checkbox: [handleSelectAll] *)

Lemma handleSelectAll_deselect st :
  length (selectedRows st) = length (artworks st) →
  handleSelectAll st =
    setSelectedRows []
      (setGlobalSelectedIds (globalSelectedIds st ∖ ids_of (artworks st)) st).
Proof.
  intros H. unfold handleSelectAll.
  rewrite bool_decide_eq_true_2 by done. simpl. by rewrite delete_each_spec.
Qed.

Lemma handleSelectAll_select st :
  length (selectedRows st) ≠ length (artworks st) →
  handleSelectAll st =
    setSelectedRows (artworks st)
      (setGlobalSelectedIds (globalSelectedIds st ∪ ids_of (artworks st)) st).
Proof.
  intros H. unfold handleSelectAll.
  rewrite bool_decide_eq_false_2 by done. simpl. by rewrite add_each_spec.
Qed.

Lemma handleSelectAll_frame st i :
  i ∉ ids_of (artworks st) →
  i ∈ globalSelectedIds (handleSelectAll st) ↔ i ∈ globalSelectedIds st.
Proof.
  intros Hi.
  destruct (decide (length (selectedRows st) = length (artworks st))) as [H|H].
  - rewrite handleSelectAll_deselect by done. simpl. set_solver.
  - rewrite handleSelectAll_select by done. simpl. set_solver.
Qed.

(** ** Frame of the mutators *)

(** C2, as stated, fails for the bulk selection: in [other_page_state]
    (page [1;2;3] loaded, record 13 of another page selected, ["2"] in the
    input box) [handleCustomSelection] removes 13 from the Selection Set. *)
Lemma selectFirstN_drops_other_pages :
  (13 ∉ ids_of (artworks other_page_state)) ∧
  (13 ∈ globalSelectedIds other_page_state) ∧
  (13 ∉ globalSelectedIds (handleCustomSelection other_page_state)).
Proof.
  split_and!.
  - vm_compute. set_solver.
  - unfold other_page_state. simpl. set_solver.
  - rewrite (handleCustomSelection_accepted other_page_state 2) by reflexivity.
    vm_compute. set_solver.
Qed.

(** C2, amended. While a page is loaded, [onSelectionChange] (given a
    subsequence of the page) and [handleSelectAll] leave the membership of
    every identifier that is not on the page as it was.  The bulk selection
    does not: when it accepts its input it removes every such identifier,
    and when it declines it changes nothing. *)
Theorem mutators_frame (st : AppState) (i : Z) :
  i ∉ ids_of (artworks st) →
  (∀ v, sublist v (artworks st) →
        (i ∈ globalSelectedIds (onSelectionChange v st) ↔ i ∈ globalSelectedIds st)) ∧
  (i ∈ globalSelectedIds (handleSelectAll st) ↔ i ∈ globalSelectedIds st) ∧
  (∀ n, parseInt (selectCount st) = Some n → 0 < n →
        i ∉ globalSelectedIds (handleCustomSelection st)) ∧
  (parseInt (selectCount st) = None ∨
   (∃ n, parseInt (selectCount st) = Some n ∧ n ≤ 0) →
   globalSelectedIds (handleCustomSelection st) = globalSelectedIds st).
Proof.
  intros Hi. split_and!.
  - intros v Hsub. rewrite onSelectionChange_ids.
    pose proof (ids_of_sublist _ _ Hsub). set_solver.
  - by apply handleSelectAll_frame.
  - intros n Hp Hn. rewrite (handleCustomSelection_accepted st n Hp Hn); simpl.
    pose proof (ids_of_sublist _ _ (first_n_sublist (Z.to_nat n) (artworks st))).
    set_solver.
  - intros Hd. by rewrite handleCustomSelection_declined.
Qed.

Lemma mutators_frame_witness :
  (13 ∈ globalSelectedIds (onSelectionChange [art 2] sample_state)
   ↔ 13 ∈ globalSelectedIds sample_state) ∧
  (13 ∈ globalSelectedIds (handleSelectAll sample_state)
   ↔ 13 ∈ globalSelectedIds sample_state) ∧
  (13 ∉ globalSelectedIds (handleCustomSelection sample_state)) ∧
  (globalSelectedIds (handleCustomSelection (setSelectCount "0" sample_state))
   = globalSelectedIds sample_state).
Proof.
  assert (H13 : 13 ∉ ids_of (artworks sample_state)) by (vm_compute; set_solver).
  destruct (mutators_frame sample_state 13 H13) as (Hsel & Hall & Hcustom & _).
  destruct (mutators_frame (setSelectCount "0" sample_state) 13 H13) as (_ & _ & _ & Hdecl).
  split_and!.
  - apply Hsel. apply sublist_cons, sublist_skip, sublist_cons, sublist_nil.
  - exact Hall.
  - apply (Hcustom 2); reflexivity.
  - apply Hdecl. right. exists 0. split; [reflexivity | lia].
Defined.

(** ** Toggling twice *)





(** ** Fetching: what a settled request does to the state *)

Lemma fetchData_settle_fulfilled rq r st :
  fetchData_settle rq (Fulfilled r) st =
    Normal (mkAppState (default [] (data r)) false
              (default 0 (total <$> pagination r)) (currentPage st)
              (reconcile (data r) (req_ids rq)) (selectCount st)
              (globalSelectedIds st) (overlayVisible st)).
Proof. reflexivity. Qed.

Lemma fetchData_settle_rejected rq st :
  fetchData_settle rq Rejected st =
    Normal (mkAppState [] false 0 (currentPage st) (selectedRows st)
              (selectCount st) (globalSelectedIds st) (overlayVisible st)).
Proof. reflexivity. Qed.

Lemma fetchData_settle_ids rq res st :
  ∃ st', fetchData_settle rq res st = Normal st' ∧
         globalSelectedIds st' = globalSelectedIds st ∧
         currentPage st' = currentPage st.
Proof. destruct res; eexists; (split; [reflexivity|done]). Qed.

Lemma settle_ids k res sys :
  globalSelectedIds (app (settle k res sys)) = globalSelectedIds (app sys).
Proof.
  unfold settle. destruct (inflight sys !! k) as [rq|]; [|done].
  destruct (fetchData_settle_ids rq res (app sys)) as (st' & -> & Hids & _).
  done.
Qed.

Lemma onPageChange_ids p sys :
  globalSelectedIds (app (onPageChange p sys)) = globalSelectedIds (app sys).
Proof. unfold onPageChange. by case_bool_decide. Qed.

Lemma onPageChange_changed p sys :
  p + 1 ≠ currentPage (app sys) →
  onPageChange p sys =
    mkSystem (setLoading true (setCurrentPage (p + 1) (app sys)))
             (inflight sys ++ [mkPending (p + 1) (globalSelectedIds (app sys))]).
Proof.
  intros Hne. unfold onPageChange. by rewrite bool_decide_eq_false_2.
Qed.

Lemma navigation_step_ids sys e :
  is_navigation e = true →
  globalSelectedIds (app (step sys e)) = globalSelectedIds (app sys).
Proof.
  destruct e; try discriminate; intros _; simpl.
  - apply onPageChange_ids.
  - apply settle_ids.
Qed.

Lemma navigation_run_ids es : ∀ sys,
  forallb is_navigation es = true →
  globalSelectedIds (app (run sys es)) = globalSelectedIds (app sys).
Proof.
  unfold run. induction es as [|e es IH]; intros sys Hall; [done|].
  simpl in *. apply andb_prop in Hall as [He Hes].
  rewrite IH by done. by apply navigation_step_ids.
Qed.

(** Clicking on another page and receiving its response with nothing in
    between: the request sits at the end of the queue, and the set its closure
    holds is the current one. *)
Lemma load_page sys p r :
  p + 1 ≠ currentPage (app sys) →
  settle (length (inflight sys)) (Fulfilled r) (onPageChange p sys) =
    mkSystem
      (mkAppState (default [] (data r)) false
         (default 0 (total <$> pagination r)) (p + 1)
         (reconcile (data r) (globalSelectedIds (app sys)))
         (selectCount (app sys)) (globalSelectedIds (app sys))
         (overlayVisible (app sys)))
      (inflight sys).
Proof.
  intros Hne. rewrite onPageChange_changed by done.
  unfold settle; simpl.
  rewrite lookup_app_r, Nat.sub_diag by done; simpl.
  f_equal. rewrite delete_middle. apply app_nil_r.
Qed.

(** ** Reconciliation *)

(** C5. On a successful fetch the view is the result of filtering the
    fetched records, in page order, by membership of their identifier in the
    Selection Set read by the request (the current one when nothing changed
    it since the page was requested): an ordered subsequence of the page that
    holds exactly the records whose identifier is selected.  An empty page
    gives an empty view through the normal path. *)
Theorem reconciliation_is_ordered_filter :
  (∀ page S,
     reconcile (Some page) S = filter (λ a, id a ∈ S) page ∧
     sublist (reconcile (Some page) S) page ∧
     (∀ a, a ∈ reconcile (Some page) S ↔ a ∈ page ∧ id a ∈ S)) ∧
  (∀ rq r st page, data r = Some page →
     ∃ st', fetchData_settle rq (Fulfilled r) st = Normal st' ∧
            artworks st' = page ∧
            selectedRows st' = filter (λ a, id a ∈ req_ids rq) page) ∧
  (∀ sys p r page, p + 1 ≠ currentPage (app sys) → data r = Some page →
     let sys' := settle (length (inflight sys)) (Fulfilled r) (onPageChange p sys) in
     artworks (app sys') = page ∧
     selectedRows (app sys')
       = filter (λ a, id a ∈ globalSelectedIds (app sys)) page ∧
     globalSelectedIds (app sys') = globalSelectedIds (app sys)) ∧
  (∀ rq r st, data r = Some [] →
     ∃ st', fetchData_settle rq (Fulfilled r) st = Normal st' ∧
            artworks st' = [] ∧ selectedRows st' = []).
Proof.
  split_and!.
  - intros page S. simpl. split_and!; [done|apply sublist_filter|].
    intros a. rewrite list_elem_of_filter. tauto.
  - intros rq r st page Hd. eexists. split; [apply fetchData_settle_fulfilled|].
    simpl. by rewrite Hd.
  - intros sys p r page Hne Hd sys'. subst sys'.
    rewrite load_page by done. simpl. by rewrite Hd.
  - intros rq r st Hd. eexists. split; [apply fetchData_settle_fulfilled|].
    simpl. by rewrite Hd.
Qed.

Lemma reconciliation_is_ordered_filter_witness :
  (selectedRows
     (app (settle 0 (page_of [12; 13; 14]) (onPageChange 1 (mkSystem sample_state []))))
   = filter (λ a, id a ∈ ({[ 1; 13 ]} : gset Z)) (art <$> [12; 13; 14])) ∧
  (∃ st', fetchData_settle (mkPending 2 ∅) (page_of []) sample_state = Normal st' ∧
          artworks st' = [] ∧ selectedRows st' = []).
Proof.
  destruct reconciliation_is_ordered_filter as (_ & _ & Hload & Hempty).
  split.
  - apply (Hload (mkSystem sample_state []) 1 _ (art <$> [12; 13; 14]));
      [simpl; lia | reflexivity].
  - apply Hempty. reflexivity.
Defined.

(** ** Failed fetch *)

(** C6. When the network call of a request throws, the catch block installs
    an empty page ([artworks = []], [totalRecords = 0]), [fetchData] still
    completes normally, and the Selection Set is the one from before: no
    identifier is added or removed, whichever request failed. *)
Theorem fetch_failure_keeps_selection :
  (∀ rq st, ∃ st',
     fetchData_settle rq Rejected st = Normal st' ∧
     artworks st' = [] ∧ totalRecords st' = 0 ∧
     globalSelectedIds st' = globalSelectedIds st) ∧
  (∀ sys k,
     globalSelectedIds (app (settle k Rejected sys)) = globalSelectedIds (app sys)) ∧
  (∀ sys k, is_Some (inflight sys !! k) →
     artworks (app (settle k Rejected sys)) = [] ∧
     totalRecords (app (settle k Rejected sys)) = 0).
Proof.
  split_and!.
  - intros rq st. eexists. split; [apply fetchData_settle_rejected|done].
  - intros sys k. apply settle_ids.
  - intros sys k [rq Hk]. unfold settle. rewrite Hk.
    by rewrite fetchData_settle_rejected.
Qed.

Lemma fetch_failure_keeps_selection_witness :
  artworks (app (settle 0 Rejected (onPageChange 1 (mkSystem sample_state [])))) = [] ∧
  totalRecords (app (settle 0 Rejected (onPageChange 1 (mkSystem sample_state [])))) = 0 ∧
  globalSelectedIds (app (settle 0 Rejected (onPageChange 1 (mkSystem sample_state []))))
    = {[ 1; 13 ]}.
Proof.
  destruct fetch_failure_keeps_selection as (_ & Hids & Hpage).
  destruct (Hpage (onPageChange 1 (mkSystem sample_state [])) 0%nat) as [Ha Ht].
  - eexists. reflexivity.
  - split_and!; [exact Ha | exact Ht |].
    apply (Hids (onPageChange 1 (mkSystem sample_state [])) 0%nat).
Defined.

(** ** Navigation *)

(** C7. Navigation alone never changes the Selection Set.  So a record [X]
    selected on page A through [onSelectionChange] or through the
    select-all branch of [handleSelectAll] is still selected after the user
    goes to another page B and comes back, both responses arriving in turn
    with no mutator in between, and the record of the returned page A that
    carries the identifier of [X] is in the view. *)
Theorem selection_survives_navigation :
  (∀ sys es, forallb is_navigation es = true →
     globalSelectedIds (app (run sys es)) = globalSelectedIds (app sys)) ∧
  (∀ sys0 sys1 (X Y : Artwork) (pA pB : Z) (rA rB : ApiResponse)
     (pageA : list Artwork),
     ((∃ v, sys1 = on_app (onSelectionChange v) sys0 ∧ X ∈ v) ∨
      (sys1 = on_app handleSelectAll sys0 ∧ X ∈ artworks (app sys0) ∧
       length (selectedRows (app sys0)) ≠ length (artworks (app sys0)))) →
     currentPage (app sys1) = pA + 1 → pB ≠ pA →
     data rA = Some pageA → Y ∈ pageA → id Y = id X →
     let q := length (inflight sys1) in
     let sys' := run sys1 [PageClick pB; Settled q (Fulfilled rB);
                           PageClick pA; Settled q (Fulfilled rA)] in
     globalSelectedIds (app sys') = globalSelectedIds (app sys1) ∧
     id X ∈ globalSelectedIds (app sys') ∧
     artworks (app sys') = pageA ∧
     Y ∈ selectedRows (app sys')).
Proof.
  split; [intros sys es; apply navigation_run_ids|].
  intros sys0 sys1 X Y pA pB rA rB pageA Hsel HcurA Hne HdA HY Hid q sys'.
  assert (HX : id X ∈ globalSelectedIds (app sys1)).
  { destruct Hsel as [(v & -> & Hv) | (-> & Hpage & Hlen)];
      unfold on_app; cbn [app].
    - rewrite onSelectionChange_ids. apply elem_of_union_r, elem_of_ids_of. eauto.
    - rewrite handleSelectAll_select by done. simpl.
      apply elem_of_union_r, elem_of_ids_of. eauto. }
  subst sys' q. unfold run; simpl.
  rewrite load_page by (rewrite HcurA; lia). simpl.
  rewrite (load_page (mkSystem _ (inflight sys1))) by (simpl; lia). simpl.
  rewrite HdA. simpl. split_and!; try done.
  apply list_elem_of_filter. split; [by rewrite Hid|done].
Qed.

Lemma selection_survives_navigation_witness :
  (3 ∈ globalSelectedIds (app (run (mkSystem (onSelectionChange [art 1; art 3] sample_state) [])
                                  [PageClick 1; Settled 0 (page_of [13; 14]);
                                   PageClick 0; Settled 0 (page_of [1; 2; 3])]))) ∧
  (art 3 ∈ selectedRows (app (run (mkSystem (onSelectionChange [art 1; art 3] sample_state) [])
                                  [PageClick 1; Settled 0 (page_of [13; 14]);
                                   PageClick 0; Settled 0 (page_of [1; 2; 3])]))).
Proof.
  destruct selection_survives_navigation as [_ Hback].
  destruct (Hback (mkSystem sample_state [])
              (on_app (onSelectionChange [art 1; art 3]) (mkSystem sample_state []))
              (art 3) (art 3) 0 1
              (mkApiResponse (Some (art <$> [1; 2; 3])) (Some (mkPagination 100 12 0 9 1)))
              (mkApiResponse (Some (art <$> [13; 14])) (Some (mkPagination 100 12 0 9 1)))
              (art <$> [1; 2; 3]))
    as (_ & Hin & _ & Hview).
  - left. exists [art 1; art 3]. split; [reflexivity|]. set_solver.
  - reflexivity.
  - lia.
  - reflexivity.
  - simpl. set_solver.
  - reflexivity.
  - split; [exact Hin | exact Hview].
Defined.

(** ** Responses that arrive late *)

(** C8, as stated, fails: the response of the older request for page 2
    arrives while page 3 is the latest page requested, and it replaces the
    loaded records of page 3. *)
Lemma stale_response_overwrites_page :
  req_page <$> inflight (run mounted overtaking_trace) = [2] ∧
  currentPage (app (run mounted overtaking_trace)) = 3 ∧
  artworks (app (run mounted overtaking_trace)) = art <$> [25; 26; 27] ∧
  currentPage (app (run mounted (overtaking_trace ++ [Settled 0 (page_of [13; 14; 15])]))) = 3 ∧
  artworks (app (run mounted (overtaking_trace ++ [Settled 0 (page_of [13; 14; 15])])))
    = art <$> [13; 14; 15].
Proof. vm_compute. done. Qed.

(** C8, amended. The component has no protection against stale responses:
    the response of any request in flight is applied when it arrives,
    whatever page was requested last.  The records, the total and the view
    are replaced from it, the view being computed with the Selection Set
    that request captured; the page number and the Selection Set stay. *)
Theorem every_response_is_applied (sys : System) (k : nat) (rq : Pending) (r : ApiResponse) :
  inflight sys !! k = Some rq →
  let sys' := settle k (Fulfilled r) sys in
  artworks (app sys') = default [] (data r) ∧
  totalRecords (app sys') = default 0 (total <$> pagination r) ∧
  selectedRows (app sys') = reconcile (data r) (req_ids rq) ∧
  currentPage (app sys') = currentPage (app sys) ∧
  globalSelectedIds (app sys') = globalSelectedIds (app sys) ∧
  inflight sys' = delete k (inflight sys).
Proof.
  intros Hk sys'. subst sys'. unfold settle. rewrite Hk.
  by rewrite fetchData_settle_fulfilled.
Qed.

Lemma every_response_is_applied_witness :
  artworks (app (settle 0 (page_of [13; 14; 15]) (run mounted overtaking_trace)))
    = art <$> [13; 14; 15] ∧
  currentPage (app (settle 0 (page_of [13; 14; 15]) (run mounted overtaking_trace)))
    = currentPage (app (run mounted overtaking_trace)).
Proof.
  destruct (every_response_is_applied (run mounted overtaking_trace) 0 (mkPending 2 ∅)
              (mkApiResponse (Some (art <$> [13; 14; 15]))
                 (Some (mkPagination 100 12 0 9 1))))
    as (Ha & _ & _ & Hc & _).
  - vm_compute. reflexivity.
  - split; [exact Ha | exact Hc].
Defined.

(** ** Agreement of the view with the Selection Set *)

Lemma onSelectionChange_consistent st v :
  NoDup (id <$> artworks st) → sublist v (artworks st) →
  view_consistent (onSelectionChange v st).
Proof.
  intros Hnd Hsub. unfold view_consistent.
  rewrite onSelectionChange_ids. simpl.
  rewrite <- (filter_ids_of_sublist v (artworks st)) at 1 by done.
  apply filter_ext_ids. intros a Ha.
  assert (id a ∈ ids_of (artworks st)) by (apply elem_of_ids_of; eauto).
  set_solver.
Qed.

Lemma handleSelectAll_consistent st : view_consistent (handleSelectAll st).
Proof.
  unfold view_consistent.
  destruct (decide (length (selectedRows st) = length (artworks st))) as [H|H].
  - rewrite handleSelectAll_deselect by done. simpl.
    symmetry. apply filter_none. intros a Ha.
    assert (id a ∈ ids_of (artworks st)) by (apply elem_of_ids_of; eauto).
    set_solver.
  - rewrite handleSelectAll_select by done. simpl.
    symmetry. apply filter_all. intros a Ha.
    assert (id a ∈ ids_of (artworks st)) by (apply elem_of_ids_of; eauto).
    set_solver.
Qed.

Lemma handleCustomSelection_consistent st :
  NoDup (id <$> artworks st) → view_consistent st →
  view_consistent (handleCustomSelection st).
Proof.
  intros Hnd Hview.
  destruct (parseInt (selectCount st)) as [n|] eqn:Hp.
  - destruct (decide (n ≤ 0)) as [Hn|Hn].
    + rewrite handleCustomSelection_declined; eauto.
    + rewrite (handleCustomSelection_accepted st n) by (done || lia).
      unfold view_consistent; simpl. symmetry.
      apply filter_ids_of_sublist; [done | apply first_n_sublist].
  - rewrite handleCustomSelection_declined; auto.
Qed.

Lemma fetchData_settle_consistent rq r st :
  (∀ i, i ∈ ids_of (default [] (data r)) →
        (i ∈ req_ids rq ↔ i ∈ globalSelectedIds st)) →
  ∃ st', fetchData_settle rq (Fulfilled r) st = Normal st' ∧ view_consistent st'.
Proof.
  intros Hagree. eexists. split; [apply fetchData_settle_fulfilled|].
  unfold view_consistent; simpl.
  destruct (data r) as [page|]; simpl in *; [|done].
  apply filter_ext_ids. intros a Ha. apply Hagree, elem_of_ids_of. eauto.
Qed.

(** C9, as stated, fails for a successful page fetch: the response for
    page 2 is reconciled against the Selection Set its request captured,
    [{13}], while the Selection Set has meanwhile become [{1}]; record 13 is
    shown selected although its identifier is not in the Selection Set. *)
Lemma fetch_after_mutation_breaks_view :
  view_consistent (app (run mounted interleaved_trace)) ∧
  artworks (app (run mounted (interleaved_trace ++ [Settled 0 (page_of [13; 14])])))
    = art <$> [13; 14] ∧
  selectedRows (app (run mounted (interleaved_trace ++ [Settled 0 (page_of [13; 14])])))
    = [art 13] ∧
  elements (globalSelectedIds
              (app (run mounted (interleaved_trace ++ [Settled 0 (page_of [13; 14])]))))
    = [1] ∧
  ¬ view_consistent
      (app (run mounted (interleaved_trace ++ [Settled 0 (page_of [13; 14])]))).
Proof.
  split_and!; try (vm_compute; reflexivity).
  intros Hview. vm_compute in Hview. discriminate Hview.
Qed.

(** C9, amended. On a page whose records have pairwise distinct
    identifiers, [onSelectionChange] (given a subsequence of the page),
    [handleSelectAll] and [handleCustomSelection] keep the view equal to the
    ordered subsequence of the loaded records whose identifiers are in the
    Selection Set.  A successful page fetch establishes that equality when
    the Selection Set captured by its request agrees with the current one on
    the identifiers of the fetched records, as it does when the response
    follows the request with no mutator in between. *)
Theorem view_consistency_kept (st : AppState) :
  (NoDup (id <$> artworks st) →
   ∀ v, sublist v (artworks st) → view_consistent (onSelectionChange v st)) ∧
  view_consistent (handleSelectAll st) ∧
  (NoDup (id <$> artworks st) → view_consistent st →
   view_consistent (handleCustomSelection st)) ∧
  (∀ rq r,
     (∀ i, i ∈ ids_of (default [] (data r)) →
           (i ∈ req_ids rq ↔ i ∈ globalSelectedIds st)) →
     ∃ st', fetchData_settle rq (Fulfilled r) st = Normal st' ∧
            view_consistent st') ∧
  (∀ q p r, p + 1 ≠ currentPage st →
     view_consistent
       (app (settle (length q) (Fulfilled r) (onPageChange p (mkSystem st q))))).
Proof.
  split_and!.
  - intros Hnd v Hsub. by apply onSelectionChange_consistent.
  - apply handleSelectAll_consistent.
  - apply handleCustomSelection_consistent.
  - intros rq r. apply fetchData_settle_consistent.
  - intros q p r Hne. rewrite (load_page (mkSystem st q)) by done.
    unfold view_consistent; simpl. by destruct (data r).
Qed.

Lemma view_consistency_kept_witness :
  view_consistent (onSelectionChange [art 2; art 3] sample_state) ∧
  view_consistent (handleCustomSelection sample_state) ∧
  (∃ st', fetchData_settle (mkPending 2 {[ 1; 13 ]}) (page_of [13; 14]) sample_state
            = Normal st' ∧
          view_consistent st') ∧
  view_consistent
    (app (settle 0 (page_of [13; 14]) (onPageChange 1 (mkSystem sample_state [])))).
Proof.
  assert (Hnd : NoDup (id <$> artworks sample_state)).
  { simpl. repeat (apply NoDup_cons; split; [set_solver|]). apply NoDup_nil_2. }
  destruct (view_consistency_kept sample_state) as (Hsel & _ & Hcustom & Hfetch & Hload).
  split_and!.
  - apply (Hsel Hnd). apply sublist_cons. reflexivity.
  - apply (Hcustom Hnd). vm_compute. reflexivity.
  - apply (Hfetch (mkPending 2 {[ 1; 13 ]})). intros i _. reflexivity.
  - apply (Hload [] 1). simpl. lia.
Defined.

(** * Further properties of the handlers *)

(** ** How the mutators compose *)

Lemma AppState_eq (s1 s2 : AppState) :
  artworks s1 = artworks s2 → loading s1 = loading s2 →
  totalRecords s1 = totalRecords s2 → currentPage s1 = currentPage s2 →
  selectedRows s1 = selectedRows s2 → selectCount s1 = selectCount s2 →
  globalSelectedIds s1 = globalSelectedIds s2 →
  overlayVisible s1 = overlayVisible s2 → s1 = s2.
Proof. destruct s1, s2; simpl; intros; by subst. Qed.

(** X1. The header checkbox does what the table would do by reporting an
    empty selection (when the view is as long as the page) or the whole page
    (otherwise): [handleSelectAll] is [onSelectionChange] at that list. *)
Theorem handleSelectAll_as_row_toggle (st : AppState) :
  handleSelectAll st =
    onSelectionChange
      (if bool_decide (length (selectedRows st) = length (artworks st))
       then [] else artworks st) st.
Proof.
  case_bool_decide as Hlen.
  - rewrite handleSelectAll_deselect by done.
    apply AppState_eq; simpl; try done.
    by rewrite delete_each_spec.
  - rewrite handleSelectAll_select by done.
    apply AppState_eq; simpl; try done.
    rewrite add_each_spec, delete_each_spec, difference_union_L. done.
Qed.


(** X3. The last report of the table wins: after a report [v1] taken from
    the page, a second report [v2] leaves the state that [v2] alone would
    have produced. *)
Theorem onSelectionChange_last_report_wins (st : AppState) (v1 v2 : list Artwork) :
  sublist v1 (artworks st) →
  onSelectionChange v2 (onSelectionChange v1 st) = onSelectionChange v2 st.
Proof.
  intros Hsub. pose proof (ids_of_sublist _ _ Hsub) as Hincl.
  apply AppState_eq; simpl; try done.
  rewrite !add_each_spec, !delete_each_spec. set_solver.
Qed.

Lemma onSelectionChange_last_report_wins_witness :
  onSelectionChange [art 3] (onSelectionChange [art 1; art 2] sample_state)
  = onSelectionChange [art 3] sample_state.
Proof.
  apply (onSelectionChange_last_report_wins sample_state).
  apply sublist_skip, sublist_skip, sublist_nil_l.
Defined.

(** X4. On an empty page (as after a failed fetch) the row toggle and the
    header checkbox leave the Selection Set alone and empty the view, while
    an accepted bulk selection still wipes the whole Selection Set. *)
Theorem mutators_on_empty_page (st : AppState) :
  artworks st = [] →
  (∀ v, globalSelectedIds (onSelectionChange v st) = globalSelectedIds st ∪ ids_of v) ∧
  (globalSelectedIds (handleSelectAll st) = globalSelectedIds st ∧
   selectedRows (handleSelectAll st) = []) ∧
  (∀ n, parseInt (selectCount st) = Some n → 0 < n →
        globalSelectedIds (handleCustomSelection st) = ∅ ∧
        selectedRows (handleCustomSelection st) = []).
Proof.
  intros Hpage. split_and!.
  - intros v. rewrite onSelectionChange_ids, Hpage. unfold ids_of at 1; simpl.
    set_solver.
  - destruct (decide (length (selectedRows st) = length (artworks st))) as [H|H].
    + rewrite handleSelectAll_deselect by done. simpl. rewrite Hpage.
      unfold ids_of; simpl. set_solver.
    + rewrite handleSelectAll_select by done. simpl. rewrite Hpage.
      unfold ids_of; simpl. set_solver.
  - destruct (decide (length (selectedRows st) = length (artworks st))) as [H|H].
    + rewrite handleSelectAll_deselect by done. done.
    + rewrite handleSelectAll_select by done. done.
  - intros n Hp Hn. rewrite (handleCustomSelection_accepted st n Hp Hn); simpl.
    rewrite Hpage. unfold first_n; simpl. by rewrite take_nil.
Qed.

Lemma mutators_on_empty_page_witness :
  globalSelectedIds
    (handleCustomSelection (mkAppState [] false 0 2 [art 1] "3" {[ 1; 13 ]} true)) = ∅ ∧
  globalSelectedIds
    (handleSelectAll (mkAppState [] false 0 2 [art 1] "3" {[ 1; 13 ]} true))
  = {[ 1; 13 ]}.
Proof.
  destruct (mutators_on_empty_page
              (mkAppState [] false 0 2 [art 1] "3" {[ 1; 13 ]} true) eq_refl)
    as (_ & [Hall _] & Hcustom).
  split; [apply (Hcustom 3); reflexivity | exact Hall].
Defined.

(** ** The header flags *)

Lemma length_filter_full (s : gset Z) (l : list Artwork) :
  length (filter (λ a, id a ∈ s) l) = length l ↔ ∀ a, a ∈ l → id a ∈ s.
Proof.
  split.
  - intros Hlen a Ha. destruct (decide (id a ∈ s)) as [|Hout]; [done|].
    pose proof (length_filter_lt (λ a, id a ∈ s) l a Ha Hout). lia.
  - intros Hall. by rewrite filter_all.
Qed.

Lemma length_filter_pos (s : gset Z) (l : list Artwork) :
  (0 < length (filter (λ a, id a ∈ s) l))%nat ↔ ∃ a, a ∈ l ∧ id a ∈ s.
Proof.
  split.
  - destruct (filter _ l) as [|a f] eqn:Hf; simpl; [lia|]. intros _.
    assert (a ∈ filter (λ a, id a ∈ s) l) as Ha by (rewrite Hf; left).
    apply list_elem_of_filter in Ha as [? ?]. eauto.
  - intros (a & Ha & Hin).
    assert (a ∈ filter (λ a, id a ∈ s) l) as Hf by (by apply list_elem_of_filter).
    destruct (filter _ l); [by apply not_elem_of_nil in Hf | simpl; lia].
Qed.

Lemma length_filter_short (s : gset Z) (l : list Artwork) :
  (length (filter (λ a, id a ∈ s) l) < length l)%nat ↔ ∃ b, b ∈ l ∧ id b ∉ s.
Proof.
  split.
  - induction l as [|a l IH]; simpl; [lia|].
    destruct (decide (id a ∈ s)) as [Hin|Hout].
    + rewrite filter_cons_True by done. simpl. intros Hlt.
      destruct IH as (b & Hb & Hnot); [lia|]. exists b. split; [by right|done].
    + intros _. exists a. split; [left|done].
  - intros (b & Hb & Hout). by apply (length_filter_lt _ _ b).
Qed.

(** X5. The two flags of the header checkbox are never set together; the
    header checkbox always leaves the indeterminate flag off, and on a
    non-empty page it flips the checked flag. *)
Theorem header_flags_after_toggle (st : AppState) :
  allSelected st && partialSelected st = false ∧
  partialSelected (handleSelectAll st) = false ∧
  (artworks st ≠ [] → allSelected (handleSelectAll st) = negb (allSelected st)) ∧
  (artworks st = [] → allSelected (handleSelectAll st) = false).
Proof.
  unfold allSelected, partialSelected.
  destruct (decide (length (selectedRows st) = length (artworks st))) as [H|H].
  - rewrite handleSelectAll_deselect by done. simpl. split_and!.
    + repeat case_bool_decide; simpl; try done; lia.
    + repeat case_bool_decide; simpl in *; try done; lia.
    + intros Hne. destruct (artworks st) eqn:Hpage; [done|].
      repeat case_bool_decide; simpl in *; try done; lia.
    + intros ->. done.
  - rewrite handleSelectAll_select by done. simpl. split_and!.
    + repeat case_bool_decide; simpl; try done; lia.
    + repeat case_bool_decide; simpl in *; try done; lia.
    + intros Hne. destruct (artworks st) eqn:Hpage; [done|].
      repeat case_bool_decide; simpl in *; try done; lia.
    + intros ->. done.
Qed.

Lemma header_flags_after_toggle_witness :
  allSelected (handleSelectAll sample_state) = true ∧
  allSelected (handleSelectAll (handleSelectAll sample_state)) = false.
Proof.
  destruct (header_flags_after_toggle sample_state) as (_ & _ & Hflip & _).
  destruct (header_flags_after_toggle (handleSelectAll sample_state))
    as (_ & _ & Hflip' & _).
  split.
  - rewrite Hflip; done.
  - rewrite Hflip', Hflip; done.
Defined.

(** X6. When the view agrees with the Selection Set, the checked flag says
    that the page is not empty and every record of it is selected, and the
    indeterminate flag says that some record of the page is selected and
    some record of it is not. *)
Theorem header_flags_meaning (st : AppState) :
  view_consistent st →
  (allSelected st = true ↔
     artworks st ≠ [] ∧ ∀ a, a ∈ artworks st → id a ∈ globalSelectedIds st) ∧
  (partialSelected st = true ↔
     (∃ a, a ∈ artworks st ∧ id a ∈ globalSelectedIds st) ∧
     (∃ b, b ∈ artworks st ∧ id b ∉ globalSelectedIds st)).
Proof.
  unfold view_consistent, allSelected, partialSelected. intros ->.
  rewrite !andb_true_iff, !bool_decide_eq_true.
  rewrite length_filter_full, length_filter_pos, length_filter_short.
  split; [|done].
  split; intros [H1 H2]; (split; [|done]).
  - intros Hnil. rewrite Hnil in H1. simpl in H1. lia.
  - destruct (artworks st); [done | simpl; lia].
Qed.

Lemma header_flags_meaning_witness :
  partialSelected partial_state = true ↔
    (∃ a, a ∈ artworks partial_state ∧ id a ∈ globalSelectedIds partial_state) ∧
    (∃ b, b ∈ artworks partial_state ∧ id b ∉ globalSelectedIds partial_state).
Proof.
  apply (header_flags_meaning partial_state). vm_compute. reflexivity.
Defined.

(** ** The counter of selected rows *)

Lemma size_ids_of_le (l : list Artwork) : (size (ids_of l) ≤ length l)%nat.
Proof.
  induction l as [|a l IH]; [done|].
  rewrite ids_of_cons, size_union_alt, size_singleton. simpl.
  pose proof (subseteq_size (ids_of l ∖ {[id a]}) (ids_of l)) as Hle.
  assert (ids_of l ∖ {[id a]} ⊆ ids_of l) as Hsub by set_solver.
  specialize (Hle Hsub). lia.
Qed.

Lemma size_ids_of (l : list Artwork) :
  NoDup (id <$> l) → size (ids_of l) = length l.
Proof.
  intros Hnd. unfold ids_of. rewrite size_list_to_set by done.
  apply length_fmap.
Qed.

Lemma NoDup_ids_sublist (v l : list Artwork) :
  sublist v l → NoDup (id <$> l) → NoDup (id <$> v).
Proof.
  intros Hsub Hnd. apply (sublist_NoDup _ (id <$> l)); [done|].
  clear Hnd. induction Hsub; simpl; by constructor.
Qed.

Lemma ids_of_filter (s : gset Z) (l : list Artwork) :
  ids_of (filter (λ a, id a ∈ s) l) = s ∩ ids_of l.
Proof.
  apply set_eq. intros i. rewrite elem_of_intersection, !elem_of_ids_of. split.
  - intros (a & Ha & <-). apply list_elem_of_filter in Ha as [? ?]. eauto.
  - intros (Hin & a & Ha & <-). exists a. split; [|done].
    by apply list_elem_of_filter.
Qed.

Lemma size_view (st : AppState) :
  view_consistent st → NoDup (id <$> artworks st) →
  size (globalSelectedIds st ∩ ids_of (artworks st)) = length (selectedRows st).
Proof.
  unfold view_consistent. intros -> Hnd.
  rewrite <- ids_of_filter. apply size_ids_of.
  eapply NoDup_ids_sublist; [apply sublist_filter | done].
Qed.

Lemma size_replace (S P V : gset Z) :
  V ⊆ P → (size ((S ∖ P) ∪ V) + size (S ∩ P) = size S + size V)%nat.
Proof.
  intros HV. rewrite size_union by set_solver.
  rewrite size_difference_alt.
  pose proof (subseteq_size (S ∩ P) S ltac:(set_solver)). lia.
Qed.

(** X7. After an accepted bulk selection the counter shows at most
    [min(n, length of the page)], and exactly that number when the records
    of the page have distinct identifiers. *)
Theorem selected_count_after_bulk_selection (st : AppState) (n : Z) :
  parseInt (selectCount st) = Some n → 0 < n →
  (selected_count (handleCustomSelection st)
     ≤ Z.to_nat n `min` length (artworks st))%nat ∧
  (NoDup (id <$> artworks st) →
   selected_count (handleCustomSelection st)
     = (Z.to_nat n `min` length (artworks st))%nat).
Proof.
  intros Hp Hn. unfold selected_count.
  rewrite (handleCustomSelection_accepted st n Hp Hn); simpl.
  assert (Hlen : length (first_n (Z.to_nat n) (artworks st))
                 = (Z.to_nat n `min` length (artworks st))%nat).
  { unfold first_n. rewrite length_take. lia. }
  split.
  - rewrite <- Hlen. apply size_ids_of_le.
  - intros Hnd. rewrite <- Hlen. apply size_ids_of.
    eapply NoDup_ids_sublist; [apply first_n_sublist | done].
Qed.

Lemma selected_count_after_bulk_selection_witness :
  selected_count (handleCustomSelection sample_state) = 2%nat.
Proof.
  apply (selected_count_after_bulk_selection sample_state 2 eq_refl eq_refl).
  simpl. repeat (apply NoDup_cons; split; [set_solver|]). apply NoDup_nil_2.
Defined.

(** X8. When the view agrees with the Selection Set and the records of the
    page have distinct identifiers, a report of the table moves the counter
    by the change in the number of rows selected on the page; the header
    checkbox adds the rows of the page that were not selected, or removes
    the whole page when the view is as long as the page. *)
Theorem selected_count_after_toggle (st : AppState) :
  view_consistent st → NoDup (id <$> artworks st) →
  (∀ v, sublist v (artworks st) →
     (selected_count (onSelectionChange v st) + length (selectedRows st)
      = selected_count st + length v)%nat) ∧
  (length (selectedRows st) ≠ length (artworks st) →
     (selected_count (handleSelectAll st) + length (selectedRows st)
      = selected_count st + length (artworks st))%nat) ∧
  (length (selectedRows st) = length (artworks st) →
     (selected_count (handleSelectAll st) + length (artworks st)
      = selected_count st)%nat).
Proof.
  intros Hview Hnd. unfold selected_count.
  pose proof (size_view st Hview Hnd) as Hsz. split_and!.
  - intros v Hsub. rewrite onSelectionChange_ids.
    rewrite <- Hsz, <- (size_ids_of v) by (by eapply NoDup_ids_sublist).
    apply size_replace. by apply ids_of_sublist.
  - intros Hlen. rewrite handleSelectAll_select by done. simpl.
    rewrite <- Hsz, <- (size_ids_of (artworks st)) by done.
    rewrite <- (difference_union_L (globalSelectedIds st)).
    by apply size_replace.
  - intros Hlen. rewrite handleSelectAll_deselect by done. simpl.
    rewrite <- Hlen, <- Hsz.
    pose proof (size_replace (globalSelectedIds st) (ids_of (artworks st)) ∅
                  ltac:(set_solver)) as Hr.
    rewrite size_empty, union_empty_r_L in Hr. lia.
Qed.

Lemma selected_count_after_toggle_witness :
  (selected_count (onSelectionChange [art 2; art 3] partial_state) + 1
   = selected_count partial_state + 2)%nat.
Proof.
  assert (Hnd : NoDup (id <$> artworks partial_state)).
  { simpl. repeat (apply NoDup_cons; split; [set_solver|]). apply NoDup_nil_2. }
  assert (Hview : view_consistent partial_state) by (vm_compute; reflexivity).
  destruct (selected_count_after_toggle partial_state Hview Hnd) as (Hsel & _ & _).
  apply (Hsel [art 2; art 3]). apply sublist_cons. reflexivity.
Defined.

(** ** What the bulk selection reads from the input box *)

Lemma handleCustomSelection_unchanged_inv st :
  handleCustomSelection st = st →
  parseInt (selectCount st) = None ∨
  ∃ n, parseInt (selectCount st) = Some n ∧ n ≤ 0.
Proof.
  intros Heq. destruct (parseInt (selectCount st)) as [n|] eqn:Hp; [|by left].
  right. exists n. split; [done|].
  destruct (decide (n ≤ 0)) as [|Hpos]; [done|]. exfalso.
  rewrite (handleCustomSelection_accepted st n) in Heq by (done || lia).
  rewrite <- Heq in Hp. simpl in Hp. by rewrite parseInt_empty in Hp.
Qed.

(** X9. The Submit button is disabled exactly when [parseInt] of the input
    is [NaN] (the test for an empty input adds nothing), and then a
    submission would change nothing.  The button is enabled for inputs that
    the handler declines all the same: those that parse to zero or to a
    negative number. *)
Theorem submit_button_gate (st : AppState) :
  (submit_disabled st = true ↔ parseInt (selectCount st) = None) ∧
  (submit_disabled st = true → handleCustomSelection st = st) ∧
  (submit_disabled st = false ∧ handleCustomSelection st = st ↔
   ∃ n, parseInt (selectCount st) = Some n ∧ n ≤ 0).
Proof.
  assert (Hgate : submit_disabled st = true ↔ parseInt (selectCount st) = None).
  { unfold submit_disabled. rewrite orb_true_iff, !bool_decide_eq_true.
    split; [|by right]. intros [-> | H]; [apply parseInt_empty | done]. }
  split_and!; [done| |].
  - intros Hd. apply handleCustomSelection_declined. left. by apply Hgate.
  - split.
    + intros [Hen Hsame].
      destruct (handleCustomSelection_unchanged_inv st Hsame) as [Hnan|Hn]; [|done].
      apply Hgate in Hnan. congruence.
    + intros (n & Hp & Hn). split.
      * apply not_true_is_false. rewrite Hgate. congruence.
      * apply handleCustomSelection_declined. eauto.
Qed.

Lemma submit_button_gate_witness :
  submit_disabled (setSelectCount "0" sample_state) = false ∧
  handleCustomSelection (setSelectCount "0" sample_state)
  = setSelectCount "0" sample_state.
Proof.
  apply (submit_button_gate (setSelectCount "0" sample_state)).
  exists 0. split; [reflexivity | lia].
Defined.

Lemma digit_value_nonneg c d : digit_value c = Some d → 0 ≤ d.
Proof.
  unfold digit_value. repeat case_bool_decide; intros [= <-]; lia.
Qed.

Lemma parse_digits_nonneg R s : ∀ acc m,
  0 ≤ R → (∀ a, acc = Some a → 0 ≤ a) →
  parse_digits R s acc = Some m → 0 ≤ m.
Proof.
  induction s as [|c s IH]; intros acc m HR Hacc; simpl.
  - intros ->. by apply Hacc.
  - unfold radix_digit. destruct (digit_value c) as [d|] eqn:Hd.
    + pose proof (digit_value_nonneg c d Hd). case_bool_decide.
      * apply IH; [done|]. intros a [= <-].
        destruct acc as [a0|]; simpl; [specialize (Hacc a0 eq_refl)|]; nia.
      * intros ->. by apply Hacc.
    + intros ->. by apply Hacc.
Qed.

(** X10. An input whose first character after the leading white space is a
    minus sign is always declined: whatever follows, [parseInt] gives [NaN]
    or a number that is not positive. *)
Theorem negative_input_declined (st : AppState) (r : string) :
  trim_start (selectCount st) = String "-" r →
  handleCustomSelection st = st.
Proof.
  intros Htrim. apply handleCustomSelection_declined.
  unfold parseInt. rewrite Htrim. simpl.
  destruct (strip_prefix r) as [R s2] eqn:Hprefix.
  assert (0 ≤ R).
  { unfold strip_prefix in Hprefix.
    repeat (case_match; simplify_eq); lia. }
  destruct (parse_digits R s2 None) as [m|] eqn:Hm; [|by left].
  right. eexists. split; [done|].
  apply parse_digits_nonneg in Hm; [lia | done | done].
Qed.

Lemma negative_input_declined_witness :
  handleCustomSelection (setSelectCount "  -7 rows" sample_state)
  = setSelectCount "  -7 rows" sample_state.
Proof.
  apply (negative_input_declined (setSelectCount "  -7 rows" sample_state) "7 rows").
  reflexivity.
Defined.

(** ** Decimal numerals *)

Lemma parse_digits_stop rest acc :
  no_leading_digit rest → parse_digits 10 rest acc = acc.
Proof. destruct rest as [|c rest]; simpl; [done|]. by intros ->. Qed.

Lemma append_cons c (s r : string) : String c s ++ r = String c (s ++ r).
Proof. reflexivity. Qed.

Lemma append_nil (r : string) : "" ++ r = r.
Proof. reflexivity. Qed.

Ltac digit_step :=
  cbn [NilEmpty.string_of_uint]; rewrite append_cons; cbn [parse_digits];
  match goal with
  | |- context [radix_digit 10 ?c] =>
      let v := eval vm_compute in (radix_digit 10 c) in
      change (radix_digit 10 c) with v
  end;
  cbn [default from_option Datatypes.id].

Lemma parse_digits_acc d rest : ∀ a : positive,
  no_leading_digit rest →
  parse_digits 10 (NilEmpty.string_of_uint d ++ rest) (Some (Z.pos a)) = Some (Z.pos (Pos.of_uint_acc d a)).
Proof.
  induction d as [|d IH|d IH|d IH|d IH|d IH|d IH|d IH|d IH|d IH|d IH];
    intros a Hrest.
  1: { simpl. rewrite append_nil. by apply parse_digits_stop. }
  all: digit_step; cbn [Pos.of_uint_acc]; rewrite <- IH by done; f_equal; f_equal; lia.
Qed.

Lemma parse_digits_zero d rest :
  no_leading_digit rest →
  parse_digits 10 (NilEmpty.string_of_uint d ++ rest) (Some 0) = Some (Z.of_N (Pos.of_uint d)).
Proof.
  intros Hrest.
  induction d as [|d IH|d IH|d IH|d IH|d IH|d IH|d IH|d IH|d IH|d IH].
  1: { simpl. rewrite append_nil. by apply parse_digits_stop. }
  1: { digit_step. cbn [Pos.of_uint Z.add Z.mul]. apply IH. }
  all: digit_step; cbn [Pos.of_uint Z.of_N Z.add Z.mul]; by apply parse_digits_acc.
Qed.

Lemma parse_digits_start d rest :
  d ≠ Decimal.Nil →
  parse_digits 10 (NilEmpty.string_of_uint d ++ rest) None = parse_digits 10 (NilEmpty.string_of_uint d ++ rest) (Some 0).
Proof. destruct d; [done|..]; intros _; by repeat digit_step. Qed.

(** The numeral of a non-empty digit sequence starts with a digit: it has no
    leading white space and no sign, and it is no [0x] prefix unless the
    sequence is the single digit 0 and an [x] follows. *)
Lemma numeral_head d rest :
  d ≠ Decimal.Nil →
  (d = Decimal.D0 Decimal.Nil → rest = "") →
  trim_start (NilEmpty.string_of_uint d ++ rest) = NilEmpty.string_of_uint d ++ rest ∧
  strip_sign (NilEmpty.string_of_uint d ++ rest) = (1, NilEmpty.string_of_uint d ++ rest) ∧
  strip_prefix (NilEmpty.string_of_uint d ++ rest) = (10, NilEmpty.string_of_uint d ++ rest).
Proof.
  intros Hnil Hzero. destruct d as [|d|d|d|d|d|d|d|d|d|d]; try done.
  destruct d as [|d|d|d|d|d|d|d|d|d|d]; try done.
  by rewrite Hzero.
Qed.

Lemma parseInt_uint d rest :
  d ≠ Decimal.Nil → (d = Decimal.D0 Decimal.Nil → rest = "") →
  no_leading_digit rest →
  parseInt (NilEmpty.string_of_uint d ++ rest) = Some (Z.of_N (Pos.of_uint d)) ∧
  parseInt (String "-" (NilEmpty.string_of_uint d ++ rest)) = Some (- Z.of_N (Pos.of_uint d)).
Proof.
  intros Hnil Hzero Hrest.
  destruct (numeral_head d rest Hnil Hzero) as (Htrim & Hsign & Hprefix).
  unfold parseInt. split.
  - rewrite Htrim, Hsign. cbv beta iota. rewrite Hprefix. cbv beta iota.
    rewrite parse_digits_start, parse_digits_zero by done.
    f_equal; lia.
  - change (trim_start (String "-" (NilEmpty.string_of_uint d ++ rest))) with (String "-" (NilEmpty.string_of_uint d ++ rest)).
    change (strip_sign (String "-" (NilEmpty.string_of_uint d ++ rest)))
      with (-1, NilEmpty.string_of_uint d ++ rest).
    cbv beta iota. rewrite Hprefix. cbv beta iota.
    rewrite parse_digits_start, parse_digits_zero by done.
    f_equal; lia.
Qed.

Lemma parseInt_numeral (n : Z) (rest : string) :
  no_leading_digit rest → (n = 0 → rest = "") →
  parseInt (decimal n ++ rest) = Some n.
Proof.
  intros Hrest Hzero. unfold decimal. destruct n as [|p|p]; simpl.
  - by rewrite Hzero.
  - pose proof (DecimalPos.Unsigned.to_uint_nonnil p) as Hnil.
    pose proof (DecimalPos.Unsigned.of_to p) as Hof.
    unfold NilZero.string_of_uint.
    destruct (Pos.to_uint p) as [|d|d|d|d|d|d|d|d|d|d] eqn:Hd; try done.
    all: rewrite <- Hd in *.
    all: destruct (parseInt_uint (Pos.to_uint p) rest) as [-> _];
      [done | intros Hz; rewrite Hz in Hof; discriminate Hof | done |].
    all: by rewrite Hof.
  - pose proof (DecimalPos.Unsigned.to_uint_nonnil p) as Hnil.
    pose proof (DecimalPos.Unsigned.of_to p) as Hof.
    unfold NilZero.string_of_uint.
    destruct (Pos.to_uint p) as [|d|d|d|d|d|d|d|d|d|d] eqn:Hd; try done.
    all: rewrite <- Hd in *.
    all: destruct (parseInt_uint (Pos.to_uint p) rest) as [_ Hneg];
      [done | intros Hz; rewrite Hz in Hof; discriminate Hof | done |].
    all: rewrite append_cons, Hneg; by rewrite Hof.
Qed.

Lemma append_empty_r (s : string) : s ++ "" = s.
Proof. induction s as [|c s IH]; [done|]. by rewrite append_cons, IH. Qed.

Lemma decimal_nonempty (n : Z) : decimal n ≠ "".
Proof.
  intros Hempty. pose proof (parseInt_numeral n "" I (λ _, eq_refl)) as Hp.
  rewrite append_empty_r, Hempty in Hp. discriminate Hp.
Qed.

(** X11. Typing the decimal numeral of a positive [n], followed or not by
    text that does not start with a digit, selects the first
    [min(n, length of the page)] records. *)
Theorem bulk_selection_reads_numeral (st : AppState) (n : Z) (rest : string) :
  0 < n → no_leading_digit rest →
  selectCount st = decimal n ++ rest →
  selectedRows (handleCustomSelection st) = first_n (Z.to_nat n) (artworks st) ∧
  globalSelectedIds (handleCustomSelection st)
    = ids_of (first_n (Z.to_nat n) (artworks st)).
Proof.
  intros Hn Hrest Hinput.
  assert (Hp : parseInt (selectCount st) = Some n).
  { rewrite Hinput. apply parseInt_numeral; [done | lia]. }
  by rewrite (handleCustomSelection_accepted st n Hp Hn).
Qed.

Lemma bulk_selection_reads_numeral_witness :
  selectedRows (handleCustomSelection (setSelectCount "2 rows" sample_state))
  = first_n 2 (art <$> [1; 2; 3]).
Proof.
  apply (bulk_selection_reads_numeral (setSelectCount "2 rows" sample_state) 2 " rows");
    [lia | reflexivity | reflexivity].
Defined.

(** ** Cells *)

(** X12. For [null], [undefined], booleans, strings and safe integers
    [formatValue] never gives an empty cell: [null], [undefined] and the
    empty string are shown as ["N/A"], a non-empty string is shown as it is,
    and a safe integer is shown as its decimal numeral, from which
    [parseInt] reads the integer back.  Nothing is stated about other
    numbers, arrays and objects. *)
Theorem formatValue_never_empty :
  (∀ value s, formatValue value = Some s → s ≠ "") ∧
  formatValue JsNull = Some "N/A" ∧
  formatValue JsUndefined = Some "N/A" ∧
  formatValue (JsString "") = Some "N/A" ∧
  (∀ s, s ≠ "" → formatValue (JsString s) = Some s) ∧
  (∀ n, safe_integer n = true →
        formatValue (JsNumber n) = Some (decimal n) ∧
        parseInt (decimal n) = Some n).
Proof.
  split_and!; try reflexivity.
  - intros value r. destruct value as [| |s|n|b|]; simpl; intros Hr.
    + by simplify_eq.
    + by simplify_eq.
    + case_bool_decide; by simplify_eq.
    + destruct (safe_integer n); simplify_eq. apply decimal_nonempty.
    + destruct b; by simplify_eq.
    + done.
  - intros s Hs. simpl. by rewrite bool_decide_eq_false_2.
  - intros n Hsafe. simpl. rewrite Hsafe. split; [done|].
    rewrite <- (append_empty_r (decimal n)). by apply parseInt_numeral.
Qed.

Lemma formatValue_never_empty_witness :
  formatValue (JsString "Starry Night") = Some "Starry Night" ∧
  formatValue (JsNumber (-1889)) = Some "-1889" ∧
  parseInt "-1889" = Some (-1889).
Proof.
  destruct formatValue_never_empty as (_ & _ & _ & _ & Hs & Hn).
  split; [by apply Hs | apply (Hn (-1889)); reflexivity].
Defined.

(** ** More on fetching *)

(** X13. A failed fetch empties the page but not the view: [selectedRows]
    keeps the rows of the page shown before.  Both header flags are off
    afterwards, and the view agrees with the Selection Set only if it was
    empty. *)
Theorem failed_fetch_leaves_view (rq : Pending) (st : AppState) :
  ∃ st', fetchData_settle rq Rejected st = Normal st' ∧
         selectedRows st' = selectedRows st ∧
         allSelected st' = false ∧
         partialSelected st' = false ∧
         (view_consistent st' ↔ selectedRows st = []).
Proof.
  eexists. split; [apply fetchData_settle_rejected|].
  unfold allSelected, partialSelected, view_consistent.
  cbn [artworks selectedRows globalSelectedIds length].
  split_and!; try done.
  rewrite (bool_decide_eq_false_2 (_ < 0)%nat) by lia. apply andb_false_r.
Qed.

Lemma failed_fetch_leaves_view_witness :
  ∃ st', fetchData_settle (mkPending 2 ∅) Rejected sample_state = Normal st' ∧
         selectedRows st' = [art 1] ∧ ¬ view_consistent st'.
Proof.
  destruct (failed_fetch_leaves_view (mkPending 2 ∅) sample_state)
    as (st' & Hrun & Hrows & _ & _ & Hview).
  exists st'. split_and!; [exact Hrun | exact Hrows |].
  intros Hc. apply Hview in Hc. discriminate Hc.
Defined.

(** X14. Whichever request settles, with a response or with a failure, the
    loading flag is cleared and that request leaves the queue, so the flag
    is off while the other requests are still in flight. *)
Theorem settled_request_clears_loading (sys : System) (k : nat) (res : FetchResult) :
  is_Some (inflight sys !! k) →
  loading (app (settle k res sys)) = false ∧
  length (inflight (settle k res sys)) = (length (inflight sys) - 1)%nat ∧
  ((1 < length (inflight sys))%nat → inflight (settle k res sys) ≠ []).
Proof.
  intros Hk. pose proof Hk as [rq Hrq]. unfold settle. rewrite Hrq.
  assert (Hlen : length (delete k (inflight sys)) = (length (inflight sys) - 1)%nat)
    by (by apply length_delete).
  destruct res; simpl; (split_and!; [done | done |]);
    intros Hmany Hnil; rewrite Hnil in Hlen; simpl in Hlen; lia.
Qed.

Lemma settled_request_clears_loading_witness :
  loading (app (settle 1 Rejected
                  (run mounted [Settled 0 (page_of [1; 2; 3]); PageClick 1; PageClick 2])))
  = false ∧
  length (inflight (settle 1 Rejected
                      (run mounted [Settled 0 (page_of [1; 2; 3]); PageClick 1; PageClick 2])))
  = 1%nat.
Proof.
  destruct (settled_request_clears_loading
              (run mounted [Settled 0 (page_of [1; 2; 3]); PageClick 1; PageClick 2])
              1 Rejected) as (Hload & Hlen & _).
  - eexists. reflexivity.
  - split; [exact Hload | exact Hlen].
Defined.

(** X15. A click on the page already shown starts no fetch and changes
    nothing.  A click on another page sets the loading flag and queues one
    request for that page with the current Selection Set, and until a
    response settles the table keeps the old records and view.  In both
    cases the paginator is at [12 * event.page]. *)
Theorem onPageChange_behaviour (sys : System) (p : Z) :
  (p + 1 = currentPage (app sys) → onPageChange p sys = sys) ∧
  (p + 1 ≠ currentPage (app sys) →
   loading (app (onPageChange p sys)) = true ∧
   inflight (onPageChange p sys)
     = (inflight sys ++ [mkPending (p + 1) (globalSelectedIds (app sys))])%list ∧
   artworks (app (onPageChange p sys)) = artworks (app sys) ∧
   selectedRows (app (onPageChange p sys)) = selectedRows (app sys)) ∧
  currentPage (app (onPageChange p sys)) = p + 1 ∧
  table_first (app (onPageChange p sys)) = 12 * p.
Proof.
  unfold table_first.
  destruct (decide (p + 1 = currentPage (app sys))) as [Heq|Hne].
  - assert (onPageChange p sys = sys) as ->.
    { unfold onPageChange. by rewrite bool_decide_eq_true_2. }
    split_and!; [done | done | done | lia].
  - rewrite onPageChange_changed by done. simpl.
    split_and!; [done | done | done | lia].
Qed.

Lemma onPageChange_behaviour_witness :
  onPageChange 0 (mkSystem sample_state []) = mkSystem sample_state [] ∧
  inflight (onPageChange 4 (mkSystem sample_state [])) = [mkPending 5 {[ 1; 13 ]}].
Proof.
  split.
  - apply (onPageChange_behaviour (mkSystem sample_state []) 0). reflexivity.
  - apply (onPageChange_behaviour (mkSystem sample_state []) 4). simpl. lia.
Defined.

(** X16. A response that decodes but carries no [data] (an error body, for
    instance) gives an empty page and an empty view, which agree, and leaves
    the Selection Set alone; without [pagination] the total is 0. *)
Theorem response_without_data (rq : Pending) (r : ApiResponse) (st : AppState) :
  data r = None →
  ∃ st', fetchData_settle rq (Fulfilled r) st = Normal st' ∧
         artworks st' = [] ∧ selectedRows st' = [] ∧
         view_consistent st' ∧
         globalSelectedIds st' = globalSelectedIds st ∧
         (pagination r = None → totalRecords st' = 0).
Proof.
  intros Hd. eexists. split; [apply fetchData_settle_fulfilled|].
  unfold view_consistent; simpl. rewrite Hd. simpl.
  split_and!; try done. by intros ->.
Qed.

Lemma response_without_data_witness :
  ∃ st', fetchData_settle (mkPending 2 ∅) (Fulfilled (mkApiResponse None None)) sample_state
           = Normal st' ∧
         artworks st' = [] ∧ selectedRows st' = [] ∧ totalRecords st' = 0.
Proof.
  destruct (response_without_data (mkPending 2 ∅) (mkApiResponse None None)
              sample_state eq_refl) as (st' & Hrun & Ha & Hrows & _ & _ & Htotal).
  exists st'. split_and!; [exact Hrun | exact Ha | exact Hrows | by apply Htotal].
Defined.

(** ** Sessions *)

Lemma handleCustomSelection_ids_bound st :
  globalSelectedIds (handleCustomSelection st)
    ⊆ globalSelectedIds st ∪ ids_of (artworks st).
Proof.
  destruct (parseInt (selectCount st)) as [n|] eqn:Hp.
  - destruct (decide (n ≤ 0)) as [Hn|Hn].
    + rewrite handleCustomSelection_declined; eauto. set_solver.
    + rewrite (handleCustomSelection_accepted st n) by (done || lia). simpl.
      pose proof (ids_of_sublist _ _ (first_n_sublist (Z.to_nat n) (artworks st))).
      set_solver.
  - rewrite handleCustomSelection_declined; auto. set_solver.
Qed.

Lemma handleSelectAll_ids_bound st :
  globalSelectedIds (handleSelectAll st)
    ⊆ globalSelectedIds st ∪ ids_of (artworks st).
Proof.
  destruct (decide (length (selectedRows st) = length (artworks st))) as [H|H].
  - rewrite handleSelectAll_deselect by done. simpl. set_solver.
  - rewrite handleSelectAll_select by done. simpl. set_solver.
Qed.

Lemma handleSelectAll_artworks st : artworks (handleSelectAll st) = artworks st.
Proof. unfold handleSelectAll. by case_bool_decide. Qed.

Lemma handleCustomSelection_artworks st :
  artworks (handleCustomSelection st) = artworks st.
Proof.
  unfold handleCustomSelection. destruct (parseInt (selectCount st)); [|done].
  by case_bool_decide.
Qed.

Lemma onPageChange_artworks p sys :
  artworks (app (onPageChange p sys)) = artworks (app sys).
Proof. unfold onPageChange. by case_bool_decide. Qed.

Lemma settle_artworks_bound k res sys :
  ids_of (artworks (app (settle k res sys)))
    ⊆ ids_of (artworks (app sys)) ∪ response_ids (Settled k res).
Proof.
  unfold settle. destruct (inflight sys !! k) as [rq|]; [|set_solver].
  destruct res as [r|]; simpl; [set_solver|].
  unfold ids_of at 1; simpl. set_solver.
Qed.

(** The identifiers selected and the identifiers on the page stay within
    [S] extended with what the event brings from the server. *)
Lemma step_within (sys : System) (e : Event) (S : gset Z) :
  table_events_ok sys [e] = true →
  globalSelectedIds (app sys) ⊆ S → ids_of (artworks (app sys)) ⊆ S →
  globalSelectedIds (app (step sys e)) ⊆ S ∪ response_ids e ∧
  ids_of (artworks (app (step sys e))) ⊆ S ∪ response_ids e.
Proof.
  intros Hok Hsel Hpage. destruct e as [p|v| |s| | |k res]; simpl in *.
  - rewrite onPageChange_ids, onPageChange_artworks. set_solver.
  - rewrite andb_true_r in Hok. apply bool_decide_eq_true in Hok.
    rewrite add_each_spec, delete_each_spec. set_solver.
  - rewrite handleSelectAll_artworks.
    pose proof (handleSelectAll_ids_bound (app sys)). set_solver.
  - set_solver.
  - set_solver.
  - rewrite handleCustomSelection_artworks.
    pose proof (handleCustomSelection_ids_bound (app sys)). set_solver.
  - rewrite settle_ids.
    pose proof (settle_artworks_bound k res sys) as Hb. simpl in Hb. set_solver.
Qed.

Lemma run_within (es : list Event) : ∀ (sys : System) (S : gset Z),
  table_events_ok sys es = true →
  globalSelectedIds (app sys) ⊆ S → ids_of (artworks (app sys)) ⊆ S →
  globalSelectedIds (app (run sys es)) ⊆ S ∪ fetched_ids es ∧
  ids_of (artworks (app (run sys es))) ⊆ S ∪ fetched_ids es.
Proof.
  induction es as [|e es IH]; intros sys S Hok Hsel Hpage.
  - unfold run, fetched_ids; simpl. set_solver.
  - simpl in Hok. apply andb_true_iff in Hok as [He Hes].
    destruct (step_within sys e S) as [Hsel' Hpage']; [|done|done|].
    { simpl. by rewrite He. }
    destruct (IH (step sys e) (S ∪ response_ids e) Hes Hsel' Hpage') as [H1 H2].
    unfold run, fetched_ids in *; simpl. set_solver.
Qed.

(** X17. In every session in which the table only reports rows of the page
    it displays, every selected identifier is the identifier of a record
    that some response of the session delivered: nothing is ever selected
    that was not fetched. *)
Theorem selection_within_fetched (es : list Event) :
  table_events_ok mounted es = true →
  globalSelectedIds (app (run mounted es)) ⊆ fetched_ids es.
Proof.
  intros Hok.
  destruct (run_within es mounted ∅ Hok) as [Hsel _]; [done|done|].
  set_solver.
Qed.

Lemma selection_within_fetched_witness :
  globalSelectedIds (app (run mounted interleaved_trace))
    ⊆ fetched_ids interleaved_trace.
Proof.
  apply (selection_within_fetched interleaved_trace). vm_compute. reflexivity.
Defined.

(** ** The version with a dialog *)

Lemma slice0_eq (k : Z) (l : list Artwork) :
  0 ≤ k → DialogVersion.slice0 k l = first_n (Z.to_nat k) l.
Proof.
  intros Hk. unfold DialogVersion.slice0, first_n.
  rewrite bool_decide_eq_false_2 by lia. f_equal. lia.
Qed.

Lemma confirmSelectMultiple_ids (st : DialogVersion.State) :
  DialogVersion.globalSelectedIds (DialogVersion.confirmSelectMultiple st)
  = (DialogVersion.globalSelectedIds st ∖ ids_of (DialogVersion.artworks st))
    ∪ ids_of (DialogVersion.slice0 (DialogVersion.rowsToSelect st)
                (DialogVersion.artworks st)).
Proof.
  unfold DialogVersion.confirmSelectMultiple; simpl.
  by rewrite add_each_spec, delete_each_spec.
Qed.

(** X18. In the version with a dialog, confirming a count [k >= 0] selects
    the first [min(k, length of the page)] records of the page, deselects
    the other records of the page, closes the dialog and, unlike the bulk
    selection of the first version, leaves every identifier that is not on
    the page as it was.  With distinct identifiers on the page the view
    agrees with the Selection Set afterwards. *)
Theorem confirmSelectMultiple_keeps_other_pages (st : DialogVersion.State) :
  0 ≤ DialogVersion.rowsToSelect st →
  let st' := DialogVersion.confirmSelectMultiple st in
  let chosen := first_n (Z.to_nat (DialogVersion.rowsToSelect st))
                        (DialogVersion.artworks st) in
  DialogVersion.selectedRows st' = chosen ∧
  DialogVersion.globalSelectedIds st'
    = (DialogVersion.globalSelectedIds st ∖ ids_of (DialogVersion.artworks st))
      ∪ ids_of chosen ∧
  (∀ i, i ∉ ids_of (DialogVersion.artworks st) →
        (i ∈ DialogVersion.globalSelectedIds st'
         ↔ i ∈ DialogVersion.globalSelectedIds st)) ∧
  DialogVersion.showSelectDialog st' = false ∧
  (NoDup (id <$> DialogVersion.artworks st) →
   DialogVersion.selectedRows st'
   = filter (λ a, id a ∈ DialogVersion.globalSelectedIds st')
            (DialogVersion.artworks st)).
Proof.
  intros Hk st' chosen. subst st'.
  pose proof (ids_of_sublist _ _
                (first_n_sublist (Z.to_nat (DialogVersion.rowsToSelect st))
                   (DialogVersion.artworks st))) as Hincl.
  fold chosen in Hincl.
  rewrite confirmSelectMultiple_ids, slice0_eq by done. fold chosen.
  assert (Hrows : DialogVersion.selectedRows (DialogVersion.confirmSelectMultiple st)
                  = chosen).
  { unfold DialogVersion.confirmSelectMultiple; simpl. by apply slice0_eq. }
  rewrite Hrows. split_and!; try done.
  - intros i Hi. set_solver.
  - intros Hnd.
    rewrite <- (filter_ids_of_sublist chosen (DialogVersion.artworks st)) at 1
      by (done || apply first_n_sublist).
    apply filter_ext_ids. intros a Ha.
    assert (id a ∈ ids_of (DialogVersion.artworks st))
      by (apply elem_of_ids_of; eauto).
    set_solver.
Qed.

Lemma confirmSelectMultiple_keeps_other_pages_witness :
  DialogVersion.selectedRows (DialogVersion.confirmSelectMultiple DialogVersion.sample)
  = first_n 10 (art <$> [1; 2; 3]) ∧
  (13 ∈ DialogVersion.globalSelectedIds
          (DialogVersion.confirmSelectMultiple DialogVersion.sample)
   ↔ 13 ∈ DialogVersion.globalSelectedIds DialogVersion.sample).
Proof.
  destruct (confirmSelectMultiple_keeps_other_pages DialogVersion.sample)
    as (Hrows & _ & Hframe & _); [simpl; lia|].
  split; [exact Hrows|]. apply Hframe. vm_compute. set_solver.
Defined.

(** X19. In the version with a dialog the header checkbox is not a toggle:
    with the flag set it selects the whole page and with the flag cleared it
    deselects it, whatever the view was, so of two calls in a row only the
    flag of the second matters; on a non-empty page the checkbox then shows
    the flag, and identifiers that are not on the page are never touched. *)
Theorem dialog_handleSelectAll_last_flag_wins (st : DialogVersion.State) (b b' : bool) :
  DialogVersion.handleSelectAll b (DialogVersion.handleSelectAll b' st)
    = DialogVersion.handleSelectAll b st ∧
  DialogVersion.globalSelectedIds (DialogVersion.handleSelectAll b st)
    = (if b then DialogVersion.globalSelectedIds st ∪ ids_of (DialogVersion.artworks st)
       else DialogVersion.globalSelectedIds st ∖ ids_of (DialogVersion.artworks st)) ∧
  DialogVersion.selectedRows (DialogVersion.handleSelectAll b st)
    = (if b then DialogVersion.artworks st else []) ∧
  DialogVersion.checkbox_checked (DialogVersion.handleSelectAll b st)
    = b && bool_decide (0 < length (DialogVersion.artworks st))%nat ∧
  (∀ i, i ∉ ids_of (DialogVersion.artworks st) →
        (i ∈ DialogVersion.globalSelectedIds (DialogVersion.handleSelectAll b st)
         ↔ i ∈ DialogVersion.globalSelectedIds st)).
Proof.
  assert (Hids : ∀ c s,
    DialogVersion.globalSelectedIds (DialogVersion.handleSelectAll c s)
    = (if c then DialogVersion.globalSelectedIds s ∪ ids_of (DialogVersion.artworks s)
       else DialogVersion.globalSelectedIds s ∖ ids_of (DialogVersion.artworks s))).
  { intros [] s; unfold DialogVersion.handleSelectAll; simpl;
      by rewrite ?add_each_spec, ?delete_each_spec. }
  split_and!.
  - destruct st as [aw ld tr cp sr gs sd rs].
    destruct b, b'; unfold DialogVersion.handleSelectAll,
      DialogVersion.setGlobalSelectedIds, DialogVersion.setSelectedRows; simpl;
      f_equal; rewrite ?add_each_spec, ?delete_each_spec.
    + set_solver.
    + by rewrite difference_union_L.
    + set_solver.
    + set_solver.
  - apply Hids.
  - by destruct b.
  - unfold DialogVersion.checkbox_checked. destruct b; simpl.
    + by rewrite bool_decide_eq_true_2.
    + repeat case_bool_decide; simpl in *; try done; lia.
  - intros i Hi. rewrite Hids. destruct b; set_solver.
Qed.

Lemma dialog_handleSelectAll_last_flag_wins_witness :
  DialogVersion.handleSelectAll true
    (DialogVersion.handleSelectAll true DialogVersion.sample)
  = DialogVersion.handleSelectAll true DialogVersion.sample ∧
  (13 ∈ DialogVersion.globalSelectedIds
          (DialogVersion.handleSelectAll false DialogVersion.sample)
   ↔ 13 ∈ DialogVersion.globalSelectedIds DialogVersion.sample).
Proof.
  split.
  - apply (dialog_handleSelectAll_last_flag_wins DialogVersion.sample true true).
  - apply (dialog_handleSelectAll_last_flag_wins DialogVersion.sample false false).
    vm_compute. set_solver.
Defined.

(** X20. In the version with a dialog, emptying the number box stores 0, and
    confirming then deselects the whole page: the view is empty and the
    identifiers of the page leave the Selection Set, the others staying. *)
Theorem confirm_after_cleared_box (st : DialogVersion.State) :
  let st' := DialogVersion.confirmSelectMultiple (DialogVersion.onValueChange None st) in
  DialogVersion.rowsToSelect (DialogVersion.onValueChange None st) = 0 ∧
  DialogVersion.selectedRows st' = [] ∧
  DialogVersion.globalSelectedIds st'
    = DialogVersion.globalSelectedIds st ∖ ids_of (DialogVersion.artworks st).
Proof.
  intros st'. subst st'.
  assert (Hnone : ∀ l, DialogVersion.slice0 0 l = []).
  { intros l. by rewrite slice0_eq. }
  split_and!; [done| |].
  - unfold DialogVersion.confirmSelectMultiple; simpl. apply Hnone.
  - rewrite confirmSelectMultiple_ids. simpl. rewrite Hnone.
    unfold ids_of at 2; simpl. set_solver.
Qed.
